(** * 2dRectPack: the [Box] primitive and the [Packer] engine

    A shallow embedding of [src/packer/Box.ts] and [src/packer/Packer.ts].

    Numbers.  Every coordinate, size, identifier and mark handled by the
    engine is modelled as an integer of [Z] (the page feeds the engine with
    [parseInt] results and a JSON table of integers, and the engine only
    adds, subtracts, multiplies and compares them).  A JavaScript number is
    a binary64 float: it holds every integer of magnitude at most [2 ^ 53],
    and the sum, the difference or the product of two such integers is
    computed without rounding when it is again of magnitude at most
    [2 ^ 53]; beyond, it is rounded.  The comparisons and the copies of the
    engine never round.  What can round are the sums [left + width] and
    [top + height] of [findBoxPosition], the differences [right - left] and
    [bottom - top] of [Box.setCoord] and [Box.createFromCoord], the lengths
    added up by [calculateScore], and the products and sums of
    [calculateFullness].  The integers of the model are the numbers of the
    source as long as these stay within [2 ^ 53]: the properties below that
    rest on the value of such a sum, difference or product are stated for
    containers whose sides, or whose area, are at most [2 ^ 53], and the
    properties that rest on comparisons and copies alone carry no bound.
    The single division of the engine, in [calculateFullness], produces a
    [jsnum]: the quotient as a rational, an infinity or NaN.  The source
    returns the double nearest to that rational; rounding to nearest keeps
    the order and leaves 0 and 1 as they are.

    Objects.  A [Box] object is a record; its mutable fields are updated by
    the setters below.  Arrays are lists.  The same [Box] objects sit in
    [boxes] and, after a [pack], in [notPlacedBoxes] or [badBoxes]: their
    only field that is ever written after creation is [needRemove], and
    [pack] leaves it [false] on every element of [boxes] when it returns, so
    between two calls of the public operations the aliased copies agree. *)

From Stdlib Require Import ZArith List Bool Lia ZifyBool QArith Lqa Permutation Arith.
From Equations Require Import Equations.
From Equations.Prop Require Import Logic.
Import ListNotations.
Open Scope Z_scope.

(** ** JavaScript numbers produced by a division *)

Inductive jsnum : Type :=
| Fin (q : Q)
| PosInf
| NegInf
| NaN.

(** [a / b] on two integers, as IEEE division decides the special cases. *)
Definition jsdiv (a b : Z) : jsnum :=
  if b =? 0 then
    if a =? 0 then NaN else if 0 <? a then PosInf else NegInf
  else Fin (inject_Z a / inject_Z b)%Q.

(** [1 - x]. *)
Definition js_one_minus (x : jsnum) : jsnum :=
  match x with
  | Fin q => Fin (1 - q)%Q
  | PosInf => NegInf
  | NegInf => PosInf
  | NaN => NaN
  end.

(** [x === -1]. *)
Definition js_is_minus_one (x : jsnum) : bool :=
  match x with
  | Fin q => Qeq_bool q (-1 # 1)
  | _ => false
  end.

(** [0 <= x <= 1]; false of NaN and of the infinities. *)
Definition in_unit_interval (x : jsnum) : Prop :=
  match x with
  | Fin q => (0 <= q /\ q <= 1)%Q
  | _ => False
  end.

(** ** Box.ts *)

Module Box.

Record t : Type := mk {
  width : Z;
  height : Z;
  left : Z;
  top : Z;
  right : Z;
  bottom : Z;
  id : Z;
  mark : Z;
  needRemove : bool
}.

(** [new Box()]: every constructor argument defaults to 0. *)
Definition new : t := mk 0 0 0 0 0 0 0 0 false.

Definition setId (b : t) (v : Z) : t :=
  mk (width b) (height b) (left b) (top b) (right b) (bottom b) v (mark b)
     (needRemove b).

Definition setMark (b : t) (v : Z) : t :=
  mk (width b) (height b) (left b) (top b) (right b) (bottom b) (id b) v
     (needRemove b).

Definition setNeedRemove (b : t) (v : bool) : t :=
  mk (width b) (height b) (left b) (top b) (right b) (bottom b) (id b)
     (mark b) v.

Definition createFromSize (w h i : Z) : t := mk w h 0 0 w h i 0 false.

Definition createFromCoord (l tp r bt : Z) : t :=
  mk (r - l) (bt - tp) l tp r bt 0 0 false.

(** [clone] builds a new object: the mark is 0 and [needRemove] takes the
    field initialiser [false]. *)
Definition clone (b : t) : t :=
  mk (width b) (height b) (left b) (top b) (right b) (bottom b) (id b) 0
     false.

Definition setCoord (b : t) (l tp r bt : Z) : t :=
  mk (r - l) (bt - tp) l tp r bt (id b) (mark b) (needRemove b).

Definition setSize (b : t) (w h : Z) : t :=
  mk w h (left b) (top b) (left b + w) (top b + h) (id b) (mark b)
     (needRemove b).

Definition square (b : t) : Z := width b * height b.

Definition isContained (a b : t) : bool :=
  (left a >=? left b) && (top a >=? top b) &&
  (right a <=? right b) && (bottom a <=? bottom b).

Definition isTouched (a b : t) : bool :=
  (right a >? left b) && (left a <? right b) &&
  (bottom a >? top b) && (top a <? bottom b).

Definition isSeparated (a b : t) : bool :=
  negb ((left b >=? right a) || (right b <=? left a) ||
        (top b >=? bottom a) || (bottom b <=? top a)).

End Box.

(** ** Packer.ts *)

Module Packer.

Definition BOTTOM_RIGHT_MARK : Z := 9007199254740991.

Record t : Type := mk {
  containerWidth : Z;
  containerHeight : Z;
  boxes : list Box.t;
  packedBoxes : list Box.t;
  freeBoxes : list Box.t;
  badBoxes : list Box.t;
  notPlacedBoxes : list Box.t;
  isPrepared : bool;
  _fullness : jsnum
}.

(** [new Packer(containerWidth, containerHeight)]. *)
Definition new (cw ch : Z) : t :=
  mk cw ch [] [] [] [] [] false (Fin (-1 # 1)).

Definition resizeContainer (p : t) (w h : Z) : t :=
  mk w h (boxes p) (packedBoxes p) (freeBoxes p) (badBoxes p)
     (notPlacedBoxes p) (isPrepared p) (_fullness p).

Definition reset (p : t) : t :=
  mk (containerWidth p) (containerHeight p) (boxes p) [] [] [] [] false
     (Fin (-1 # 1)).

Definition clear (p : t) : t :=
  reset (mk (containerWidth p) (containerHeight p) [] (packedBoxes p)
            (freeBoxes p) (badBoxes p) (notPlacedBoxes p) (isPrepared p)
            (_fullness p)).

Definition addBox (p : t) (w h i : Z) : t :=
  let box := Box.createFromSize (Z.min w h) (Z.max w h) i in
  mk (containerWidth p) (containerHeight p) (boxes p ++ [box])
     (packedBoxes p) (freeBoxes p) (badBoxes p) (notPlacedBoxes p) false
     (_fullness p).

(** The test of the callback given to [filter] in [filterBadBoxes]. *)
Definition isBadBox (p : t) (box : Box.t) : bool :=
  ((Box.width box >? containerWidth p) &&
   (Box.width box >? containerHeight p)) ||
  ((Box.height box >? containerWidth p) &&
   (Box.height box >? containerHeight p)) ||
  ((Box.width box <=? 0) || (Box.height box <=? 0)).

(** [filterBadBoxes] returns the boxes that pass and pushes the others, in
    order, on [badBoxes]. *)
Definition filterBadBoxes (p : t) (bs : list Box.t) : list Box.t * t :=
  (filter (fun box => negb (isBadBox p box)) bs,
   mk (containerWidth p) (containerHeight p) (boxes p) (packedBoxes p)
      (freeBoxes p) (badBoxes p ++ filter (isBadBox p) bs)
      (notPlacedBoxes p) (isPrepared p) (_fullness p)).

(** The comparator of [boxes.sort] in [prepare]. *)
Definition compareBoxes (a b : Box.t) : Z :=
  if Box.width a =? Box.width b then Box.height b - Box.height a
  else Box.width b - Box.width a.

(** [Array.prototype.sort] is stable: an element is put before the first
    element it does not have to follow. *)
Fixpoint insertSorted (x : Box.t) (l : list Box.t) : list Box.t :=
  match l with
  | [] => [x]
  | y :: l' =>
      if compareBoxes x y <=? 0 then x :: y :: l'
      else y :: insertSorted x l'
  end.

Definition sortBoxes (l : list Box.t) : list Box.t :=
  fold_right insertSorted [] l.

Definition addFreeBox (fbs : list Box.t) (l tp r bt : Z) : list Box.t :=
  fbs ++ [Box.createFromCoord l tp r bt].

Definition prepare (p : t) : t :=
  let p := reset p in
  let '(kept, p) := filterBadBoxes p (boxes p) in
  mk (containerWidth p) (containerHeight p) (sortBoxes kept)
     (packedBoxes p)
     (addFreeBox (freeBoxes p) 0 0 (containerWidth p) (containerHeight p))
     (badBoxes p) (notPlacedBoxes p) true (_fullness p).

Definition commonIntervalLength (startA endA startB endB : Z) : Z :=
  if (endA <? startB) || (endB <? startA) then 0
  else Z.min endA endB - Z.max startA startB.

Definition calculateScore (p : t) (l tp r bt : Z) : Z :=
  let score := 0 in
  let score :=
    if (l =? 0) || (r =? containerWidth p) then score + (bt - tp)
    else score in
  let score :=
    if (tp =? 0) || (bt =? containerHeight p) then score + (r - l)
    else score in
  fold_left
    (fun score box =>
       let score :=
         if (Box.left box =? r) || (Box.right box =? l)
         then score + commonIntervalLength (Box.top box) (Box.bottom box)
                                           tp bt
         else score in
       if (Box.top box =? bt) || (Box.bottom box =? tp)
       then score + commonIntervalLength (Box.left box) (Box.right box) l r
       else score)
    (packedBoxes p) score.

(** One turn of the loop of [findBoxPosition] over the free boxes: the
    state is the test box and the best score so far. *)
Definition tryFreeBox (p : t) (box : Box.t) (st : Box.t * Z)
           (freeBox : Box.t) : Box.t * Z :=
  let '(testBox, bestScore) := st in
  let '(testBox, bestScore) :=
    if (Box.width freeBox >=? Box.width box) &&
       (Box.height freeBox >=? Box.height box)
    then
      let score :=
        calculateScore p (Box.left freeBox) (Box.top freeBox)
                       (Box.left freeBox + Box.width box)
                       (Box.top freeBox + Box.height box) in
      if score >? bestScore
      then (Box.setCoord testBox (Box.left freeBox) (Box.top freeBox)
                         (Box.left freeBox + Box.width box)
                         (Box.top freeBox + Box.height box), score)
      else (testBox, bestScore)
    else (testBox, bestScore) in
  if (Box.width freeBox >=? Box.height box) &&
     (Box.height freeBox >=? Box.width box)
  then
    let score :=
      calculateScore p (Box.left freeBox) (Box.top freeBox)
                     (Box.left freeBox + Box.height box)
                     (Box.top freeBox + Box.width box) in
    if score >? bestScore
    then (Box.setCoord testBox (Box.left freeBox) (Box.top freeBox)
                       (Box.left freeBox + Box.height box)
                       (Box.top freeBox + Box.width box), score)
    else (testBox, bestScore)
  else (testBox, bestScore).

(** [findBoxPosition] writes its answer in [testBox]: the new state of
    that object is returned. *)
Definition findBoxPosition (p : t) (box testBox : Box.t) : Box.t :=
  let '(testBox, bestScore) :=
    fold_left (tryFreeBox p box) (freeBoxes p) (Box.setMark testBox 0, -1)
  in
  Box.setId (Box.setMark testBox bestScore) (Box.id box).

(** The [for] loop of [pack] over [boxes], from index [i] on.  The pair
    [bestBoxIndex], [bestBox] of the source is [None] while
    [bestBoxIndex] is -1 and [bestBox] is undefined: the two are always
    assigned together. *)
Fixpoint findBest (p : t) (bs : list Box.t) (i : nat) (testBox : Box.t)
         (bestScore : Z) (best : option (nat * Box.t))
  : Box.t * Z * option (nat * Box.t) :=
  match bs with
  | [] => (testBox, bestScore, best)
  | b :: bs' =>
      if Box.needRemove b then findBest p bs' (S i) testBox bestScore best
      else
        let testBox := findBoxPosition p b testBox in
        if Box.mark testBox >? bestScore
        then findBest p bs' (S i) testBox (Box.mark testBox)
                      (Some (i, Box.clone testBox))
        else findBest p bs' (S i) testBox bestScore best
  end.

(** [splitFreeBox] pushes up to four boxes on [freeBoxes]: the array is
    threaded through. *)
Definition splitFreeBox (fbs : list Box.t) (freeBox box : Box.t)
  : list Box.t :=
  let fbs :=
    if (Box.top box >? Box.top freeBox) &&
       (Box.top box <? Box.bottom freeBox)
    then addFreeBox fbs (Box.left freeBox) (Box.top freeBox)
                    (Box.right freeBox) (Box.top box)
    else fbs in
  let fbs :=
    if Box.bottom box <? Box.bottom freeBox
    then addFreeBox fbs (Box.left freeBox) (Box.bottom box)
                    (Box.right freeBox) (Box.bottom freeBox)
    else fbs in
  let fbs :=
    if (Box.left box >? Box.left freeBox) &&
       (Box.left box <? Box.right freeBox)
    then addFreeBox fbs (Box.left freeBox) (Box.top freeBox)
                    (Box.left box) (Box.bottom freeBox)
    else fbs in
  if Box.right box <? Box.right freeBox
  then addFreeBox fbs (Box.right box) (Box.top freeBox)
                  (Box.right freeBox) (Box.bottom freeBox)
  else fbs.

(** *** The first loop of [addPackedBox]

    [for (const freeBox of this.freeBoxes)] reads the array as it is when
    each element is reached, so the boxes that [splitFreeBox] pushes
    during the loop are visited too.  The array is [done ++ todo], where
    [done] holds the elements already visited. *)

Lemma splitFreeBox_app (fbs : list Box.t) (freeBox box : Box.t) :
  splitFreeBox fbs freeBox box = fbs ++ splitFreeBox [] freeBox box.
Proof.
  unfold splitFreeBox, addFreeBox.
  repeat match goal with |- context [if ?c then _ else _] => destruct c end;
    cbn [app]; rewrite ?app_nil_r, <- ?app_assoc; reflexivity.
Qed.

Lemma splitFreeBox_not_separated (freeBox box : Box.t) :
  Forall (fun s => Box.isSeparated s box = false)
         (splitFreeBox [] freeBox box).
Proof.
  unfold splitFreeBox, addFreeBox.
  repeat match goal with |- context [if ?c then _ else _] => destruct c end;
    cbn [app]; repeat constructor;
    unfold Box.isSeparated, Box.createFromCoord; cbn;
    apply negb_false_iff; rewrite !orb_true_iff; lia.
Qed.

Lemma splitFreeBox_length (freeBox box : Box.t) :
  (length (splitFreeBox [] freeBox box) <= 4)%nat.
Proof.
  unfold splitFreeBox, addFreeBox.
  repeat match goal with |- context [if ?c then _ else _] => destruct c end;
    cbn; lia.
Qed.

(** What is left to do in the loop: a box that will be split counts for
    itself and for the four boxes it may push. *)
Fixpoint splitWeight (box : Box.t) (todo : list Box.t) : nat :=
  match todo with
  | [] => 0
  | f :: todo' =>
      ((if Box.isSeparated f box then 5 else 1) + splitWeight box todo')%nat
  end.

Lemma splitWeight_app (box : Box.t) (l1 l2 : list Box.t) :
  splitWeight box (l1 ++ l2) = (splitWeight box l1 + splitWeight box l2)%nat.
Proof. induction l1 as [|f l1 IH]; cbn; [reflexivity | rewrite IH; lia]. Qed.

Lemma splitWeight_not_separated (box : Box.t) (l : list Box.t) :
  Forall (fun s => Box.isSeparated s box = false) l ->
  splitWeight box l = length l.
Proof.
  induction 1 as [|f l Hf _ IH]; cbn; [reflexivity | rewrite Hf, IH; lia].
Qed.

Equations? splitLoop (box : Box.t) (done todo : list Box.t) : list Box.t
  by wf (splitWeight box todo) lt :=
splitLoop box done [] := done;
splitLoop box done (freeBox :: rest) with inspect (Box.isSeparated freeBox box) := {
  | exist _ true _ :=
      splitLoop box (done ++ [Box.setNeedRemove freeBox true])
                (splitFreeBox rest freeBox box);
  | exist _ false _ := splitLoop box (done ++ [freeBox]) rest }.
Proof.
  - rewrite splitFreeBox_app, splitWeight_app.
    rewrite (@splitWeight_not_separated box (splitFreeBox [] freeBox box))
      by apply splitFreeBox_not_separated.
    pose proof (splitFreeBox_length freeBox box).
    cbn. rewrite e. lia.
  - cbn. rewrite e. lia.
Qed.

(** *** The second loop of [addPackedBox]

    [pruneInner] is the loop on [j] for a [box1] that is not marked: it
    returns [box1] and the boxes after it, as the loop leaves them.
    [pruneOuter n] runs [n] turns of the loop on [i]. *)

Fixpoint pruneInner (box1 : Box.t) (rest : list Box.t)
  : Box.t * list Box.t :=
  match rest with
  | [] => (box1, [])
  | box2 :: rest' =>
      if Box.needRemove box2 then
        let '(b1, r) := pruneInner box1 rest' in (b1, box2 :: r)
      else if Box.isContained box1 box2 then
        (Box.setNeedRemove box1 true, rest)
      else if Box.isContained box2 box1 then
        let '(b1, r) := pruneInner box1 rest' in
        (b1, Box.setNeedRemove box2 true :: r)
      else
        let '(b1, r) := pruneInner box1 rest' in (b1, box2 :: r)
  end.

Fixpoint pruneOuter (n : nat) (l : list Box.t) : list Box.t :=
  match n, l with
  | S n', box1 :: rest =>
      if Box.needRemove box1 then box1 :: pruneOuter n' rest
      else
        let '(b1, rest') := pruneInner box1 rest in
        b1 :: pruneOuter n' rest'
  | _, _ => l
  end.

Definition keepFreeBoxes (fbs : list Box.t) : list Box.t :=
  filter (fun box => negb (Box.needRemove box)) fbs.

Definition addPackedBox (p : t) (box : Box.t) : t :=
  let fbs := splitLoop box [] (freeBoxes p) in
  let fbs := pruneOuter (length fbs - 1) fbs in
  mk (containerWidth p) (containerHeight p) (boxes p)
     (packedBoxes p ++ [box]) (keepFreeBoxes fbs) (badBoxes p)
     (notPlacedBoxes p) (isPrepared p) (_fullness p).

(** *** The loop of [pack] *)

(** [boxes[i].needRemove = true]. *)
Fixpoint markRemoved (i : nat) (bs : list Box.t) : list Box.t :=
  match bs, i with
  | [], _ => []
  | b :: bs', O => Box.setNeedRemove b true :: bs'
  | b :: bs', S i' => b :: markRemoved i' bs'
  end.

Definition setBoxes (p : t) (bs : list Box.t) : t :=
  mk (containerWidth p) (containerHeight p) bs (packedBoxes p)
     (freeBoxes p) (badBoxes p) (notPlacedBoxes p) (isPrepared p)
     (_fullness p).

(** The boxes of the list that are not marked. *)
Definition remaining (bs : list Box.t) : list Box.t :=
  filter (fun box => negb (Box.needRemove box)) bs.

Lemma findBest_index (p : t) (bs : list Box.t) :
  forall i testBox bestScore best testBox' bestScore' k bestBox,
    findBest p bs i testBox bestScore best
    = (testBox', bestScore', Some (k, bestBox)) ->
    (exists b0, best = Some (k, b0)) \/
    (exists b, nth_error bs (k - i) = Some b /\ Box.needRemove b = false /\
               (i <= k)%nat).
Proof.
  induction bs as [|b bs IH]; cbn [findBest]; intros i tb sc best tb' sc' k bb H.
  - inversion H; subst. left. eauto.
  - destruct (Box.needRemove b) eqn:Hb.
    + apply IH in H. destruct H as [H | (b1 & Hn & Hr & Hle)]; [now left|].
      right. exists b1. replace (k - i)%nat with (S (k - S i)) by lia.
      cbn. repeat split; [assumption .. | lia].
    + destruct (Box.mark (findBoxPosition p b tb) >? sc).
      * apply IH in H. destruct H as [(b0 & H) | (b1 & Hn & Hr & Hle)].
        -- inversion H; subst. right. exists b. rewrite Nat.sub_diag.
           cbn. auto.
        -- right. exists b1. replace (k - i)%nat with (S (k - S i)) by lia.
           cbn. repeat split; [assumption .. | lia].
      * apply IH in H. destruct H as [H | (b1 & Hn & Hr & Hle)]; [now left|].
        right. exists b1. replace (k - i)%nat with (S (k - S i)) by lia.
        cbn. repeat split; [assumption .. | lia].
Qed.

Lemma markRemoved_remaining (bs : list Box.t) :
  forall k b,
    nth_error bs k = Some b -> Box.needRemove b = false ->
    (length (remaining (markRemoved k bs)) < length (remaining bs))%nat.
Proof.
  unfold remaining.
  induction bs as [|b0 bs IH]; intros [|k] b Hn Hb; cbn in Hn; try discriminate.
  - inversion Hn; subst. cbn. rewrite Hb. cbn. lia.
  - cbn. specialize (IH _ _ Hn Hb). destruct (Box.needRemove b0); cbn; lia.
Qed.

(** [while (boxes.length !== packedBoxes.length)]: [testBox] is the object
    created before the loop, which every turn writes. *)
Equations? packLoop (p : t) (testBox : Box.t) : t
  by wf (length (remaining (boxes p))) lt :=
packLoop p testBox with Nat.eqb (length (boxes p)) (length (packedBoxes p)) := {
  | true := p;
  | false with inspect (findBest p (boxes p) 0 testBox 0 None) := {
    | exist _ (_, _, None) _ := p;
    | exist _ (testBox', _, Some (bestBoxIndex, bestBox)) _ :=
        let p' := addPackedBox p bestBox in
        packLoop (setBoxes p' (markRemoved bestBoxIndex (boxes p'))) testBox' } }.
Proof.
  apply findBest_index in e. destruct e as [(b0 & H) | (b & Hn & Hb & _)].
  - discriminate.
  - rewrite Nat.sub_0_r in Hn. cbn. eapply markRemoved_remaining; eassumption.
Qed.

(** The last loop of [pack]. *)
Definition collectNotPlaced (p : t) : t :=
  mk (containerWidth p) (containerHeight p)
     (map (fun box => Box.setNeedRemove box false) (boxes p))
     (packedBoxes p) (freeBoxes p) (badBoxes p)
     (notPlacedBoxes p ++ remaining (boxes p)) (isPrepared p)
     (_fullness p).

(** [pack] returns [this.packedBoxes]; the engine after the call comes
    with it. *)
Definition pack (p : t) : list Box.t * t :=
  let p := if isPrepared p then p else prepare p in
  let p := packLoop p Box.new in
  let p := collectNotPlaced p in
  (packedBoxes p, p).

(** *** Fullness *)

Definition markCorner (p : t) (box : Box.t) : Box.t :=
  if (Box.right box =? containerWidth p) &&
     (Box.bottom box =? containerHeight p)
  then Box.setMark box BOTTOM_RIGHT_MARK
  else Box.setMark box 0.

(** The loop on [j] of [calculateFullness] for [box1]: it returns [box1],
    the boxes after it and [nextMark]. *)
Fixpoint touchInner (box1 : Box.t) (rest : list Box.t) (nextMark : Z)
  : Box.t * list Box.t * Z :=
  match rest with
  | [] => (box1, [], nextMark)
  | box2 :: rest' =>
      if Box.isTouched box1 box2 then
        let mark := Z.max (Box.mark box1) (Box.mark box2) in
        let '(mark, nextMark) :=
          if mark =? 0 then (nextMark, nextMark + 1) else (mark, nextMark) in
        let '(b1, r, nm) :=
          touchInner (Box.setMark box1 mark) rest' nextMark in
        (b1, Box.setMark box2 mark :: r, nm)
      else
        let '(b1, r, nm) := touchInner box1 rest' nextMark in
        (b1, box2 :: r, nm)
  end.

Fixpoint touchOuter (n : nat) (l : list Box.t) (nextMark : Z)
  : list Box.t :=
  match n, l with
  | S n', box1 :: rest =>
      let '(b1, rest', nm) := touchInner box1 rest nextMark in
      b1 :: touchOuter n' rest' nm
  | _, _ => l
  end.

Definition calculateFullness (p : t) : t :=
  let fbs := map (markCorner p) (freeBoxes p) in
  let fbs := touchOuter (length fbs - 1) fbs 1 in
  let innerSquare :=
    fold_left
      (fun accum box =>
         if negb (Box.mark box =? BOTTOM_RIGHT_MARK)
         then accum + Box.square box else accum)
      fbs 0 in
  let boxSquare :=
    fold_left (fun accum box => accum + Box.square box) (packedBoxes p) 0 in
  mk (containerWidth p) (containerHeight p) (boxes p) (packedBoxes p) fbs
     (badBoxes p) (notPlacedBoxes p) (isPrepared p)
     (js_one_minus (jsdiv innerSquare (boxSquare + innerSquare))).

(** [get fullness()]: the value read and the engine after the read. *)
Definition fullness (p : t) : jsnum * t :=
  let p := if js_is_minus_one (_fullness p) then calculateFullness p else p in
  (_fullness p, p).

Definition boxesSize (p : t) : nat := length (boxes p).

End Packer.

(** * Vocabulary of the properties *)

(** A sequence of [addBox] calls, each given as (width, height, id). *)
Definition addBoxes (p : Packer.t) (l : list (Z * Z * Z)) : Packer.t :=
  fold_left (fun p '(w, h, i) => Packer.addBox p w h i) l p.

(** The bounds and identifier of a box, as the page reads them from the
    result of [pack]. *)
Definition bounds (b : Box.t) : Z * Z * Z * Z * Z :=
  (Box.left b, Box.top b, Box.right b, Box.bottom b, Box.id b).

(** The two tests of [findBoxPosition]: the free box is large enough for
    the box as it is stored, or for the box turned by a quarter. *)
Definition accommodates (freeBox box : Box.t) : bool :=
  ((Box.width freeBox >=? Box.width box) &&
   (Box.height freeBox >=? Box.height box)) ||
  ((Box.width freeBox >=? Box.height box) &&
   (Box.height freeBox >=? Box.width box)).

(** The overlap test in the words of the specification: the closed
    intervals [[left, right]] and [[top, bottom]] of the two boxes meet on
    both axes.  It is compared with [Box.isSeparated] below. *)
Definition closedIntervalsIntersect (a b : Box.t) : bool :=
  (Box.left a <=? Box.right b) && (Box.left b <=? Box.right a) &&
  (Box.top a <=? Box.bottom b) && (Box.top b <=? Box.bottom a).

(** The open intervals of the two boxes meet on both axes. *)
Definition interiorsOverlap (a b : Box.t) : Prop :=
  Box.left a < Box.right b /\ Box.left b < Box.right a /\
  Box.top a < Box.bottom b /\ Box.top b < Box.bottom a.

(** [a] lies in [b], bounds included. *)
Definition insideOf (a b : Box.t) : Prop :=
  Box.left b <= Box.left a /\ Box.top b <= Box.top a /\
  Box.right a <= Box.right b /\ Box.bottom a <= Box.bottom b.

(** What the first loop of [addPackedBox] makes of a free box: it is
    marked when the placed box overlaps it. *)
Definition flagIfSeparated (box freeBox : Box.t) : Box.t :=
  if Box.isSeparated freeBox box then Box.setNeedRemove freeBox true
  else freeBox.

(** What the first loop of [addPackedBox] pushes for a free box. *)
Definition residuals (box freeBox : Box.t) : list Box.t :=
  if Box.isSeparated freeBox box then Packer.splitFreeBox [] freeBox box
  else [].

(** [pack] on an engine that is prepared: the loop and the collection of
    the boxes that are not placed, without [prepare]. *)
Definition packPrepared (p : Packer.t) : list Box.t * Packer.t :=
  let q := Packer.collectNotPlaced (Packer.packLoop p Box.new) in
  (Packer.packedBoxes q, q).

(** The engine of scenario A after [pack] and a read of [fullness]: its
    cache holds 1. *)
Definition engineWithCachedFullness : Packer.t :=
  snd (Packer.fullness
         (snd (Packer.pack (Packer.addBox (Packer.new 100 100) 100 100 1)))).

(** [y] is [x], or [x] with its removal flag set because it lies in
    [box1]. *)
Definition prunedBy (box1 x y : Box.t) : Prop :=
  y = x \/
  (Box.needRemove x = false /\ y = Box.setNeedRemove x true /\ insideOf x box1).

(** [y] is [x], possibly with its removal flag set. *)
Definition flaggedFrom (x y : Box.t) : Prop :=
  y = x \/ y = Box.setNeedRemove x true.

(** A point of the plane lies in the box, bounds included. *)
Definition pointIn (x y : Q) (b : Box.t) : Prop :=
  (inject_Z (Box.left b) <= x /\ x <= inject_Z (Box.right b) /\
   inject_Z (Box.top b) <= y /\ y <= inject_Z (Box.bottom b))%Q.

(** A point of the plane lies in the box, bounds excluded. *)
Definition pointInterior (x y : Q) (b : Box.t) : Prop :=
  (inject_Z (Box.left b) < x /\ x < inject_Z (Box.right b) /\
   inject_Z (Box.top b) < y /\ y < inject_Z (Box.bottom b))%Q.

(** [placed] has the size of [box], as stored or turned by a quarter. *)
Definition sameRectangle (placed box : Box.t) : Prop :=
  Box.id placed = Box.id box /\
  ((Box.width placed = Box.width box /\ Box.height placed = Box.height box) \/
   (Box.width placed = Box.height box /\ Box.height placed = Box.width box)).

(** [testBox] holds [box], in one of its two orientations, at the top left
    corner of [freeBox], which is large enough for it. *)
Definition placedAtCorner (freeBox box testBox : Box.t) : Prop :=
  Box.left testBox = Box.left freeBox /\
  Box.top testBox = Box.top freeBox /\
  Box.right testBox = Box.left freeBox + Box.width testBox /\
  Box.bottom testBox = Box.top freeBox + Box.height testBox /\
  Box.width testBox <= Box.width freeBox /\
  Box.height testBox <= Box.height freeBox /\
  ((Box.width testBox = Box.width box /\
    Box.height testBox = Box.height box) \/
   (Box.width testBox = Box.height box /\
    Box.height testBox = Box.width box)).

(** What [findBoxPosition] has found so far: nothing, and the score is -1,
    or a place in a free box, and the score is larger than -1. *)
Definition searchState (p : Packer.t) (box : Box.t) (st : Box.t * Z) : Prop :=
  snd st = -1 \/
  (-1 < snd st /\
   exists freeBox, In freeBox (Packer.freeBoxes p) /\
                   placedAtCorner freeBox box (fst st)).

(** The box that [pack] is about to commit. *)
Definition candidate (p : Packer.t) (box bestBox : Box.t) : Prop :=
  Box.id bestBox = Box.id box /\
  Box.needRemove bestBox = false /\
  exists freeBox, In freeBox (Packer.freeBoxes p) /\
                  placedAtCorner freeBox box bestBox.

(** The placed boxes are placements of boxes of [boxes0], and these boxes
    together with the boxes that are not marked are the boxes of [boxes0]. *)
Definition accounted (boxes0 : list Box.t) (p : Packer.t) : Prop :=
  exists sources,
    Forall2 sameRectangle (Packer.packedBoxes p) sources /\
    Permutation (sources ++ Packer.remaining (Packer.boxes p)) boxes0.

(** The box that [addBox] makes of its arguments. *)
Definition boxOfCall (c : Z * Z * Z) : Box.t :=
  let '(w, h, i) := c in Box.createFromSize (Z.min w h) (Z.max w h) i.

(** The engines that the public operations of [Packer] can produce. *)
Inductive reachable : Packer.t -> Prop :=
| reach_new (cw ch : Z) : reachable (Packer.new cw ch)
| reach_resizeContainer (p : Packer.t) (w h : Z) :
    reachable p -> reachable (Packer.resizeContainer p w h)
| reach_clear (p : Packer.t) : reachable p -> reachable (Packer.clear p)
| reach_addBox (p : Packer.t) (w h i : Z) :
    reachable p -> reachable (Packer.addBox p w h i)
| reach_prepare (p : Packer.t) : reachable p -> reachable (Packer.prepare p)
| reach_pack (p : Packer.t) : reachable p -> reachable (snd (Packer.pack p))
| reach_fullness (p : Packer.t) :
    reachable p -> reachable (snd (Packer.fullness p)).

(** The box lies in [[0, containerWidth] x [0, containerHeight]]. *)
Definition insideContainer (p : Packer.t) (b : Box.t) : Prop :=
  0 <= Box.left b /\ 0 <= Box.top b /\
  Box.right b <= Packer.containerWidth p /\
  Box.bottom b <= Packer.containerHeight p.

(** The invariant of [Box]: the size agrees with the bounds. *)
Definition coherent (b : Box.t) : Prop :=
  Box.width b = Box.right b - Box.left b /\
  Box.height b = Box.bottom b - Box.top b.

(** The invariant of the loop of [pack]: free boxes and placed boxes lie in
    the container, no free box overlaps a placed box, no two placed boxes
    overlap, and the boxes to place have a positive size. *)
Record wellPacked (p : Packer.t) : Prop := {
  wp_free :
    Forall (fun f => insideContainer p f /\ coherent f /\
                     Box.needRemove f = false)
           (Packer.freeBoxes p);
  wp_packed :
    Forall (fun q => insideContainer p q /\ coherent q /\
                     0 < Box.width q /\ 0 < Box.height q)
           (Packer.packedBoxes p);
  wp_free_packed :
    forall f q, In f (Packer.freeBoxes p) -> In q (Packer.packedBoxes p) ->
                ~ interiorsOverlap f q;
  wp_disjoint :
    ForallOrdPairs (fun a b => ~ interiorsOverlap a b) (Packer.packedBoxes p);
  wp_boxes :
    Forall (fun b => 0 < Box.width b /\ 0 < Box.height b) (Packer.boxes p)
}.

(** What a placed box adds to the score of the place [(l, tp)-(r, bt)]. *)
Definition seamScore (l tp r bt score : Z) (box : Box.t) : Z :=
  let score :=
    if (Box.left box =? r) || (Box.right box =? l)
    then score + Packer.commonIntervalLength (Box.top box) (Box.bottom box)
                                             tp bt
    else score in
  if (Box.top box =? bt) || (Box.bottom box =? tp)
  then score + Packer.commonIntervalLength (Box.left box) (Box.right box) l r
  else score.

(** Every rectangle of positive size in the container that no placed box
    overlaps lies in a free box. *)
Definition freeCovers (p : Packer.t) : Prop :=
  forall r : Box.t,
    Box.left r < Box.right r -> Box.top r < Box.bottom r ->
    insideContainer p r ->
    (forall q, In q (Packer.packedBoxes p) -> ~ interiorsOverlap r q) ->
    exists f, In f (Packer.freeBoxes p) /\ insideOf r f.

(** The box that [prepare] pushes on [freeBoxes]. *)
Definition containerBox (p : Packer.t) : Box.t :=
  Box.createFromCoord 0 0 (Packer.containerWidth p) (Packer.containerHeight p).

(** Nothing is placed and the container is the one free box, or the first
    placed box sits at the origin. *)
Definition startsAtOrigin (c : Box.t) (p : Packer.t) : Prop :=
  (Packer.packedBoxes p = [] /\ Packer.freeBoxes p = [c]) \/
  (exists b rest, Packer.packedBoxes p = b :: rest /\
                  Box.left b = 0 /\ Box.top b = 0).

(** [l'] is [l], but for the removal flags. *)
Definition sameButFlags (l l' : list Box.t) : Prop :=
  map (fun b => Box.setNeedRemove b false) l'
  = map (fun b => Box.setNeedRemove b false) l.

(** [y] is [x], but for the mark. *)
Definition markedFrom (x y : Box.t) : Prop := y = Box.setMark x (Box.mark y).



(** The bounds of the box agree with its size and the box is not marked for
    removal. *)
Definition tidy (b : Box.t) : Prop := coherent b /\ Box.needRemove b = false.

(** [a] may come before [b] in the order of [prepare]: it is wider, or as
    wide and at least as high. *)
Definition before (a b : Box.t) : Prop :=
  Box.width b < Box.width a \/
  (Box.width a = Box.width b /\ Box.height b <= Box.height a).

(** Neither box lies in the other. *)
Definition unrelated (a b : Box.t) : Prop :=
  ~ insideOf a b /\ ~ insideOf b a.

(** What the loop on [j] makes of a box when it runs to the end: a marked
    box is left alone, a box inside [box1] is marked, and any other box is
    compared with [box1] both ways and left alone. *)
Definition comparedWith (box1 x y : Box.t) : Prop :=
  (Box.needRemove x = true /\ y = x) \/
  (Box.needRemove x = false /\ y = Box.setNeedRemove x true) \/
  (Box.needRemove x = false /\ y = x /\ unrelated box1 x).

(** The mark that [findBoxPosition] leaves for a box: the best score of a
    place for it, or -1. *)
Definition bestScoreOf (p : Packer.t) (box : Box.t) : Z :=
  Box.mark (Packer.findBoxPosition p box Box.new).



(** A box as [addBox] stores it: at the origin, not wider than high, with
    mark 0. *)
Definition normalised (b : Box.t) : Prop :=
  Box.left b = 0 /\ Box.top b = 0 /\
  Box.right b = Box.width b /\ Box.bottom b = Box.height b /\
  Box.width b <= Box.height b /\ Box.mark b = 0.





(** Both sides of the box are longer than the container is high. *)
Definition tooHigh (ch : Z) (b : Box.t) : Prop :=
  ch < Box.width b /\ ch < Box.height b.

(** * Properties *)

(** ** The geometric predicates *)

Lemma isSeparated_iff (a b : Box.t) :
  Box.isSeparated a b = true <-> interiorsOverlap a b.
Proof.
  unfold Box.isSeparated, interiorsOverlap.
  rewrite negb_true_iff, !orb_false_iff. lia.
Qed.

Lemma isSeparated_false_iff (a b : Box.t) :
  Box.isSeparated a b = false <-> ~ interiorsOverlap a b.
Proof.
  rewrite <- isSeparated_iff. destruct (Box.isSeparated a b); split; congruence.
Qed.

Lemma isTouched_iff (a b : Box.t) :
  Box.isTouched a b = true <-> interiorsOverlap a b.
Proof.
  unfold Box.isTouched, interiorsOverlap. rewrite !andb_true_iff. lia.
Qed.

Lemma isContained_iff (a b : Box.t) :
  Box.isContained a b = true <-> insideOf a b.
Proof.
  unfold Box.isContained, insideOf. rewrite !andb_true_iff. lia.
Qed.

(** C6, as the code has it: [Box.isSeparated] holds exactly when the open
    intervals of the two boxes overlap on both axes (strict inequalities),
    and it agrees with [Box.isTouched] on every pair of boxes. *)
Theorem isSeparated_is_strict_overlap (a b : Box.t) :
  (Box.isSeparated a b = true <-> interiorsOverlap a b) /\
  Box.isSeparated a b = Box.isTouched a b.
Proof.
  split; [apply isSeparated_iff|].
  pose proof (isSeparated_iff a b) as Hs. pose proof (isTouched_iff a b) as Ht.
  destruct (Box.isSeparated a b), (Box.isTouched a b); try reflexivity.
  - symmetry. apply Ht, Hs. reflexivity.
  - apply Hs, Ht. reflexivity.
Qed.

(** C6 fails as stated: two boxes that share an edge have closed intervals
    that meet on both axes, yet [Box.isSeparated] is false of them, as
    [Box.isTouched] is. *)
Lemma isSeparated_not_closed_intersection :
  let a := Box.createFromCoord 0 0 1 1 in
  let b := Box.createFromCoord 1 0 2 1 in
  closedIntervalsIntersect a b = true /\
  Box.isSeparated a b = false /\
  Box.isTouched a b = false.
Proof. cbv. repeat split; reflexivity. Qed.

(** ** The loops in closed form *)

Lemma map_flag_not_separated (box : Box.t) (l : list Box.t) :
  Forall (fun s => Box.isSeparated s box = false) l ->
  map (flagIfSeparated box) l = l.
Proof.
  induction 1 as [|s l Hs _ IH]; cbn; [reflexivity|].
  unfold flagIfSeparated at 1. rewrite Hs, IH. reflexivity.
Qed.

Lemma flat_map_residuals_not_separated (box : Box.t) (l : list Box.t) :
  Forall (fun s => Box.isSeparated s box = false) l ->
  flat_map (residuals box) l = [].
Proof.
  induction 1 as [|s l Hs _ IH]; cbn; [reflexivity|].
  unfold residuals at 1. rewrite Hs, IH. reflexivity.
Qed.

(** The first loop of [addPackedBox] marks the free boxes that the placed
    box overlaps and appends what [splitFreeBox] makes of each: the boxes
    pushed during the loop are visited and left alone. *)
Lemma splitLoop_closed (box : Box.t) (done todo : list Box.t) :
  Packer.splitLoop box done todo
  = done ++ map (flagIfSeparated box) todo ++ flat_map (residuals box) todo.
Proof.
  funelim (Packer.splitLoop box done todo).
  - cbn. rewrite app_nil_r. reflexivity.
  - rewrite H. cbn [map flat_map]. unfold flagIfSeparated at 2, residuals at 2.
    rewrite e. rewrite Packer.splitFreeBox_app, map_app, flat_map_app.
    rewrite (map_flag_not_separated box _
               (Packer.splitFreeBox_not_separated freeBox box)).
    rewrite (flat_map_residuals_not_separated box _
               (Packer.splitFreeBox_not_separated freeBox box)).
    rewrite app_nil_r, <- !app_assoc. reflexivity.
  - rewrite H. cbn [map flat_map]. unfold flagIfSeparated at 2, residuals at 2.
    rewrite e. rewrite <- !app_assoc. reflexivity.
Qed.

(** A property kept by every turn of the loop of [pack] holds when the loop
    ends. *)
Lemma packLoop_invariant (P : Packer.t -> Prop) :
  (forall p testBox testBox' score k bestBox,
      P p ->
      Packer.findBest p (Packer.boxes p) 0 testBox 0 None
      = (testBox', score, Some (k, bestBox)) ->
      P (Packer.setBoxes
           (Packer.addPackedBox p bestBox)
           (Packer.markRemoved k (Packer.boxes (Packer.addPackedBox p bestBox))))) ->
  forall p testBox, P p -> P (Packer.packLoop p testBox).
Proof.
  intros Hstep p testBox.
  funelim (Packer.packLoop p testBox); intros HP; try assumption.
  match goal with IH : context [Packer.packLoop] |- _ => apply IH end;
    [assumption|].
  eapply Hstep; eassumption.
Qed.

(** The loop of [pack] writes [boxes], [packedBoxes] and [freeBoxes] only. *)
Lemma packLoop_frame (p : Packer.t) (testBox : Box.t) :
  let q := Packer.packLoop p testBox in
  Packer.containerWidth q = Packer.containerWidth p /\
  Packer.containerHeight q = Packer.containerHeight p /\
  Packer.badBoxes q = Packer.badBoxes p /\
  Packer.notPlacedBoxes q = Packer.notPlacedBoxes p /\
  Packer.isPrepared q = Packer.isPrepared p /\
  Packer._fullness q = Packer._fullness p.
Proof.
  cbv zeta.
  apply (packLoop_invariant
           (fun q =>
              Packer.containerWidth q = Packer.containerWidth p /\
              Packer.containerHeight q = Packer.containerHeight p /\
              Packer.badBoxes q = Packer.badBoxes p /\
              Packer.notPlacedBoxes q = Packer.notPlacedBoxes p /\
              Packer.isPrepared q = Packer.isPrepared p /\
              Packer._fullness q = Packer._fullness p)).
  - intros q tb tb' sc k bb H _. cbn. exact H.
  - repeat split.
Qed.

(** ** Resizing and the fullness cache *)

(** C9: [resizeContainer] writes the two container dimensions and nothing
    else, so a [pack] that follows it on a prepared engine runs the
    placement loop on the state as it is, without [prepare]. *)
Theorem resizeContainer_frame (p : Packer.t) (w h : Z) :
  let q := Packer.resizeContainer p w h in
  Packer.containerWidth q = w /\ Packer.containerHeight q = h /\
  Packer.boxes q = Packer.boxes p /\
  Packer.packedBoxes q = Packer.packedBoxes p /\
  Packer.freeBoxes q = Packer.freeBoxes p /\
  Packer.badBoxes q = Packer.badBoxes p /\
  Packer.notPlacedBoxes q = Packer.notPlacedBoxes p /\
  Packer.isPrepared q = Packer.isPrepared p /\
  Packer._fullness q = Packer._fullness p /\
  (Packer.isPrepared p = true -> Packer.pack q = packPrepared q).
Proof.
  cbn. repeat split. intros Hp. unfold Packer.pack, packPrepared. cbn.
  rewrite Hp. reflexivity.
Qed.

(** The theorem on the engine of scenario A, resized to 50x50 after its
    [pack]. *)
Lemma resizeContainer_frame_witness :
  Packer.isPrepared engineWithCachedFullness = true /\
  Packer.pack (Packer.resizeContainer engineWithCachedFullness 50 50)
  = packPrepared (Packer.resizeContainer engineWithCachedFullness 50 50).
Proof.
  split; [reflexivity|].
  apply (resizeContainer_frame engineWithCachedFullness 50 50). reflexivity.
Defined.

(** C4, as the code has it: [clear] sets the cache to the sentinel -1;
    [addBox] leaves the cache as it is and clears the prepared flag, and the
    [pack] that follows resets the cache to the sentinel; [resizeContainer]
    leaves the cache as it is. *)
Theorem fullness_cache_after_mutation (p : Packer.t) (w h i : Z) :
  Packer._fullness (Packer.clear p) = Fin (-1 # 1) /\
  Packer._fullness (Packer.addBox p w h i) = Packer._fullness p /\
  Packer.isPrepared (Packer.addBox p w h i) = false /\
  Packer._fullness (snd (Packer.pack (Packer.addBox p w h i))) = Fin (-1 # 1) /\
  Packer._fullness (Packer.resizeContainer p w h) = Packer._fullness p.
Proof.
  repeat split.
  unfold Packer.pack. cbn [Packer.isPrepared Packer.addBox snd].
  cbn [Packer.collectNotPlaced Packer._fullness].
  destruct (packLoop_frame (Packer.prepare (Packer.addBox p w h i)) Box.new)
    as (_ & _ & _ & _ & _ & Hf).
  rewrite Hf. reflexivity.
Qed.

(** C4 fails as stated: on an engine whose cache holds a computed value,
    the cache is not the sentinel after [addBox], nor after
    [resizeContainer]. *)
Lemma fullness_cache_survives_addBox :
  js_is_minus_one
    (Packer._fullness (Packer.addBox engineWithCachedFullness 10 10 2)) = false /\
  js_is_minus_one
    (Packer._fullness (Packer.resizeContainer engineWithCachedFullness 50 50))
  = false.
Proof. split; vm_compute; reflexivity. Qed.

(** C3 at the failing input: on a new engine the read of [fullness] divides
    0 by 0 and returns NaN, which is not in [0, 1]; the same happens after a
    [pack] that places nothing. *)
Theorem fullness_of_empty_engine (cw ch : Z) :
  fst (Packer.fullness (Packer.new cw ch)) = NaN /\
  ~ in_unit_interval (fst (Packer.fullness (Packer.new cw ch))) /\
  fst (Packer.fullness
         (snd (Packer.pack (Packer.addBox (Packer.new 10 10) 20 20 1)))) = NaN.
Proof.
  split; [reflexivity|]. split.
  - cbn. intros [].
  - vm_compute. reflexivity.
Qed.

(** ** The pruning loop of [addPackedBox] *)

Lemma insideOf_refl (a : Box.t) : insideOf a a.
Proof. unfold insideOf. lia. Qed.

Lemma insideOf_trans (a b c : Box.t) :
  insideOf a b -> insideOf b c -> insideOf a c.
Proof. unfold insideOf. lia. Qed.

Lemma pruneInner_spec (box1 : Box.t) (rest : list Box.t) :
  forall b1 rest',
    Packer.pruneInner box1 rest = (b1, rest') ->
    Forall2 (prunedBy box1) rest rest' /\
    (b1 = box1 \/
     (b1 = Box.setNeedRemove box1 true /\
      exists box2, In box2 rest' /\ Box.needRemove box2 = false /\
                   insideOf box1 box2)).
Proof.
  induction rest as [|box2 rest IH]; cbn [Packer.pruneInner]; intros b1 rest' H.
  - inversion H; subst. split; [constructor | now left].
  - destruct (Box.needRemove box2) eqn:Hf2.
    + destruct (Packer.pruneInner box1 rest) as [c1 r] eqn:Hin.
      inversion H; subst. destruct (IH _ _ eq_refl) as [HF Hb].
      split; [constructor; [now left | assumption]|].
      destruct Hb as [Hb | (Hb & x & Hx & Hfx & Hix)]; [now left|].
      right. split; [assumption|]. exists x. cbn. auto.
    + destruct (Box.isContained box1 box2) eqn:Hc1.
      * inversion H; subst. split.
        -- clear. induction (box2 :: rest); constructor; [now left | assumption].
        -- right. split; [reflexivity|]. exists box2. cbn.
           apply isContained_iff in Hc1. auto.
      * destruct (Packer.pruneInner box1 rest) as [c1 r] eqn:Hin.
        destruct (IH _ _ eq_refl) as [HF Hb].
        assert (Hb' : forall y,
                   c1 = box1 \/
                   (c1 = Box.setNeedRemove box1 true /\
                    exists x, In x (y :: r) /\ Box.needRemove x = false /\
                              insideOf box1 x)).
        { intros y. destruct Hb as [Hb | (Hb & x & Hx & Hfx & Hix)]; [now left|].
          right. split; [assumption|]. exists x. cbn. auto. }
        destruct (Box.isContained box2 box1) eqn:Hc2; inversion H; subst.
        -- split; [|apply Hb']. constructor; [|assumption].
           right. apply isContained_iff in Hc2. auto.
        -- split; [|apply Hb']. constructor; [now left | assumption].
Qed.

Lemma prunedBy_flaggedFrom (box1 : Box.t) (l l' : list Box.t) :
  Forall2 (prunedBy box1) l l' -> Forall2 flaggedFrom l l'.
Proof.
  induction 1 as [|x y l l' Hxy _ IH]; constructor; [|assumption].
  destruct Hxy as [-> | (_ & -> & _)]; [now left | now right].
Qed.

Lemma flaggedFrom_trans (l1 l2 l3 : list Box.t) :
  Forall2 flaggedFrom l1 l2 -> Forall2 flaggedFrom l2 l3 ->
  Forall2 flaggedFrom l1 l3.
Proof.
  intros H12. revert l3. induction H12 as [|x y l1 l2 Hxy _ IH]; intros l3 H23;
    inversion H23; subst; constructor; [|now apply IH].
  destruct Hxy as [-> | ->]; [assumption|].
  match goal with H : flaggedFrom _ _ |- _ => destruct H as [-> | ->] end;
    now right.
Qed.

Lemma flaggedFrom_refl (l : list Box.t) : Forall2 flaggedFrom l l.
Proof. induction l; constructor; [now left | assumption]. Qed.

(** The pruning loop only sets removal flags. *)
Lemma pruneOuter_flaggedFrom (n : nat) :
  forall l, Forall2 flaggedFrom l (Packer.pruneOuter n l).
Proof.
  induction n as [|n IH]; intros [|box1 rest]; cbn [Packer.pruneOuter];
    try apply flaggedFrom_refl.
  destruct (Box.needRemove box1).
  - constructor; [now left | apply IH].
  - destruct (Packer.pruneInner box1 rest) as [b1 rest'] eqn:Hin.
    destruct (pruneInner_spec _ _ _ _ Hin) as [HF Hb].
    constructor.
    + destruct Hb as [-> | (-> & _)]; [now left | now right].
    + eapply flaggedFrom_trans; [eapply prunedBy_flaggedFrom; eassumption|].
      apply IH.
Qed.

Lemma keepFreeBoxes_flaggedFrom (l l' : list Box.t) (g : Box.t) :
  Forall2 flaggedFrom l l' ->
  In g (Packer.keepFreeBoxes l') -> In g l /\ Box.needRemove g = false.
Proof.
  unfold Packer.keepFreeBoxes. intros HF Hg. apply filter_In in Hg.
  destruct Hg as [Hg Hfg]. apply negb_true_iff in Hfg. split; [|assumption].
  induction HF as [|x y l l' Hxy _ IH]; [contradiction|].
  destruct Hg as [<- | Hg]; [|right; now apply IH].
  destruct Hxy as [-> | ->]; [now left|]. cbn in Hfg. discriminate.
Qed.

(** A box that is not marked is, after any number of turns of the pruning
    loop, inside a box that is not marked. *)
Lemma pruneOuter_covers (n : nat) :
  forall l x,
    In x l -> Box.needRemove x = false ->
    exists g, In g (Packer.pruneOuter n l) /\ Box.needRemove g = false /\
              insideOf x g.
Proof.
  induction n as [|n IH]; intros l x Hx Hfx.
  - exists x. destruct l; cbn; auto using insideOf_refl.
  - destruct l as [|box1 rest]; [contradiction|]. cbn [Packer.pruneOuter].
    destruct (Box.needRemove box1) eqn:Hf1.
    + destruct Hx as [-> | Hx]; [congruence|].
      destruct (IH _ _ Hx Hfx) as (g & Hg & Hfg & Hig).
      exists g. cbn. auto.
    + destruct (Packer.pruneInner box1 rest) as [b1 rest'] eqn:Hin.
      destruct (pruneInner_spec _ _ _ _ Hin) as [HF Hb].
      assert (Hbox1 : exists g, In g (b1 :: Packer.pruneOuter n rest') /\
                                Box.needRemove g = false /\ insideOf box1 g).
      { destruct Hb as [-> | (-> & box2 & H2 & Hf2 & Hi2)].
        - exists box1. cbn. auto using insideOf_refl.
        - destruct (IH _ _ H2 Hf2) as (g & Hg & Hfg & Hig).
          exists g. cbn. eauto using insideOf_trans. }
      destruct Hx as [<- | Hx]; [assumption|].
      assert (Hy : exists y, In y rest' /\ prunedBy box1 x y).
      { clear - HF Hx. induction HF as [|a b l l' Hab _ IHF]; [contradiction|].
        destruct Hx as [-> | Hx].
        - exists b. cbn. auto.
        - destruct (IHF Hx) as (y & Hy & Hp). exists y. cbn. auto. }
      destruct Hy as (y & Hy & [-> | (_ & _ & Hin1)]).
      * destruct (IH _ _ Hy Hfx) as (g & Hg & Hfg & Hig).
        exists g. cbn. auto.
      * destruct Hbox1 as (g & Hg & Hfg & Hig).
        exists g. eauto using insideOf_trans.
Qed.

(** ** What [splitFreeBox] and [addPackedBox] do to the free boxes *)

(** The four boxes that [splitFreeBox] may push. *)
Lemma splitFreeBox_In (freeBox box s : Box.t) :
  In s (Packer.splitFreeBox [] freeBox box) <->
  (Box.top freeBox < Box.top box < Box.bottom freeBox /\
   s = Box.createFromCoord (Box.left freeBox) (Box.top freeBox)
                           (Box.right freeBox) (Box.top box)) \/
  (Box.bottom box < Box.bottom freeBox /\
   s = Box.createFromCoord (Box.left freeBox) (Box.bottom box)
                           (Box.right freeBox) (Box.bottom freeBox)) \/
  (Box.left freeBox < Box.left box < Box.right freeBox /\
   s = Box.createFromCoord (Box.left freeBox) (Box.top freeBox)
                           (Box.left box) (Box.bottom freeBox)) \/
  (Box.right box < Box.right freeBox /\
   s = Box.createFromCoord (Box.right box) (Box.top freeBox)
                           (Box.right freeBox) (Box.bottom freeBox)).
Proof.
  unfold Packer.splitFreeBox, Packer.addFreeBox.
  destruct ((Box.top box >? Box.top freeBox) &&
            (Box.top box <? Box.bottom freeBox)) eqn:H1;
    destruct (Box.bottom box <? Box.bottom freeBox) eqn:H2;
    destruct ((Box.left box >? Box.left freeBox) &&
              (Box.left box <? Box.right freeBox)) eqn:H3;
    destruct (Box.right box <? Box.right freeBox) eqn:H4;
    cbn [app In]; split;
    try (intros H; repeat (destruct H as [<- | H]; [solve [intuition lia]|]);
         contradiction);
    intros [(Hc & ->) | [(Hc & ->) | [(Hc & ->) | (Hc & ->)]]];
    solve [tauto | exfalso; lia].
Qed.

(** A box pushed by [splitFreeBox] for a free box that the placed box
    overlaps: it is a fresh box inside the free box that the placed box
    does not overlap, and it has a positive width and a positive height
    when the free box has. *)
Lemma splitFreeBox_strip (freeBox box s : Box.t) :
  In s (Packer.splitFreeBox [] freeBox box) ->
  Box.isSeparated freeBox box = true ->
  insideOf s freeBox /\
  Box.width s = Box.right s - Box.left s /\
  Box.height s = Box.bottom s - Box.top s /\
  Box.needRemove s = false /\
  Box.isSeparated s box = false /\
  (Box.left freeBox < Box.right freeBox ->
   Box.top freeBox < Box.bottom freeBox ->
   0 < Box.width s /\ 0 < Box.height s).
Proof.
  intros Hs Hsep. apply isSeparated_iff in Hsep.
  unfold interiorsOverlap in Hsep.
  assert (Hns : Box.isSeparated s box = false).
  { pose proof (Packer.splitFreeBox_not_separated freeBox box) as HF.
    rewrite Forall_forall in HF. now apply HF. }
  apply splitFreeBox_In in Hs.
  destruct Hs as [(Hc & ->) | [(Hc & ->) | [(Hc & ->) | (Hc & ->)]]];
    unfold insideOf; cbn; repeat split; try assumption; lia.
Qed.

(** The free boxes after [addPackedBox]: free boxes of before that the
    placed box does not overlap, and boxes pushed by [splitFreeBox] for the
    others. *)
Lemma addPackedBox_freeBoxes (p : Packer.t) (box g : Box.t) :
  In g (Packer.freeBoxes (Packer.addPackedBox p box)) ->
  Box.needRemove g = false /\
  ((In g (Packer.freeBoxes p) /\ Box.isSeparated g box = false) \/
   (exists f, In f (Packer.freeBoxes p) /\ Box.isSeparated f box = true /\
              In g (Packer.splitFreeBox [] f box))).
Proof.
  cbn [Packer.addPackedBox Packer.freeBoxes]. intros Hg.
  eapply keepFreeBoxes_flaggedFrom in Hg; [|apply pruneOuter_flaggedFrom].
  destruct Hg as [Hg Hfg]. split; [assumption|].
  rewrite splitLoop_closed in Hg. cbn [app] in Hg.
  apply in_app_or in Hg. destruct Hg as [Hg | Hg].
  - apply in_map_iff in Hg. destruct Hg as (f & <- & Hf).
    unfold flagIfSeparated in *. destruct (Box.isSeparated f box) eqn:Hsep.
    + cbn in Hfg. discriminate.
    + left. auto.
  - apply in_flat_map in Hg. destruct Hg as (f & Hf & Hg).
    unfold residuals in Hg. destruct (Box.isSeparated f box) eqn:Hsep;
      [|contradiction].
    right. eauto.
Qed.

(** A box of the array after the first loop of [addPackedBox] that is not
    marked is inside a free box of the engine after [addPackedBox]. *)
Lemma addPackedBox_covers (p : Packer.t) (box x : Box.t) :
  In x (Packer.splitLoop box [] (Packer.freeBoxes p)) ->
  Box.needRemove x = false ->
  exists g, In g (Packer.freeBoxes (Packer.addPackedBox p box)) /\
            insideOf x g.
Proof.
  intros Hx Hfx. cbn [Packer.addPackedBox Packer.freeBoxes].
  destruct (pruneOuter_covers
              (length (Packer.splitLoop box [] (Packer.freeBoxes p)) - 1)
              _ _ Hx Hfx) as (g & Hg & Hfg & Hig).
  exists g. split; [|assumption].
  unfold Packer.keepFreeBoxes. apply filter_In. rewrite Hfg. auto.
Qed.

(** The boxes pushed by [splitFreeBox] cover what the placed box leaves of
    the inside of the free box. *)
Lemma splitFreeBox_cover (freeBox box : Box.t) (x y : Q) :
  Box.isSeparated freeBox box = true ->
  pointInterior x y freeBox -> ~ pointInterior x y box ->
  exists s, In s (Packer.splitFreeBox [] freeBox box) /\ pointIn x y s.
Proof.
  intros Hsep (Hx1 & Hx2 & Hy1 & Hy2) Hout.
  apply isSeparated_iff in Hsep. destruct Hsep as (S1 & S2 & S3 & S4).
  rewrite Zlt_Qlt in S1, S2, S3, S4.
  destruct (Qlt_le_dec (inject_Z (Box.top box)) y) as [Ht | Ht].
  - destruct (Qlt_le_dec y (inject_Z (Box.bottom box))) as [Hb | Hb].
    + destruct (Qlt_le_dec (inject_Z (Box.left box)) x) as [Hl | Hl].
      * destruct (Qlt_le_dec x (inject_Z (Box.right box))) as [Hr | Hr].
        -- exfalso. apply Hout. unfold pointInterior. auto.
        -- exists (Box.createFromCoord (Box.right box) (Box.top freeBox)
                                       (Box.right freeBox) (Box.bottom freeBox)).
           split.
           ++ apply splitFreeBox_In. right; right; right. split; [|reflexivity].
              rewrite Zlt_Qlt. lra.
           ++ unfold pointIn; cbn. lra.
      * exists (Box.createFromCoord (Box.left freeBox) (Box.top freeBox)
                                    (Box.left box) (Box.bottom freeBox)).
        split.
        -- apply splitFreeBox_In. right; right; left. split; [|reflexivity].
           rewrite !Zlt_Qlt. split; lra.
        -- unfold pointIn; cbn. lra.
    + exists (Box.createFromCoord (Box.left freeBox) (Box.bottom box)
                                  (Box.right freeBox) (Box.bottom freeBox)).
      split.
      * apply splitFreeBox_In. right; left. split; [|reflexivity].
        rewrite Zlt_Qlt. lra.
      * unfold pointIn; cbn. lra.
  - exists (Box.createFromCoord (Box.left freeBox) (Box.top freeBox)
                                (Box.right freeBox) (Box.top box)).
    split.
    + apply splitFreeBox_In. left. split; [|reflexivity].
      rewrite !Zlt_Qlt. split; lra.
    + unfold pointIn; cbn. lra.
Qed.

(** C2: when [addPackedBox] commits a box, a free box of positive width and
    height that the box overlaps (by [Box.isSeparated]) is no longer among
    the free boxes, and no free box that is left overlaps the placed box;
    [splitFreeBox] pushes at most four boxes for it, each of which is on
    the array after the first loop and inside a free box of the engine
    after [addPackedBox]; each pushed box has a positive area, lies
    in the free box and does not overlap the inside of the placed box; and
    every point inside the free box that is not inside the placed box is in
    a pushed box. *)
Theorem addPackedBox_splits_overlapped (p : Packer.t) (box freeBox : Box.t) :
  In freeBox (Packer.freeBoxes p) ->
  Box.left freeBox < Box.right freeBox ->
  Box.top freeBox < Box.bottom freeBox ->
  Box.isSeparated freeBox box = true ->
  let strips := Packer.splitFreeBox [] freeBox box in
  let q := Packer.addPackedBox p box in
  ~ In freeBox (Packer.freeBoxes q) /\
  Forall (fun g => Box.isSeparated g box = false) (Packer.freeBoxes q) /\
  (length strips <= 4)%nat /\
  (forall s, In s strips ->
             In s (Packer.splitLoop box [] (Packer.freeBoxes p)) /\
             exists g, In g (Packer.freeBoxes q) /\ insideOf s g) /\
  Forall (fun s => 0 < Box.width s /\ 0 < Box.height s /\ 0 < Box.square s /\
                   insideOf s freeBox /\ ~ interiorsOverlap s box) strips /\
  (forall x y : Q,
      pointInterior x y freeBox -> ~ pointInterior x y box ->
      exists s, In s strips /\ pointIn x y s).
Proof.
  intros Hin Hw Hh Hsep strips q.
  assert (Hfree : Forall (fun g => Box.isSeparated g box = false)
                         (Packer.freeBoxes q)).
  { apply Forall_forall. intros g Hg. apply addPackedBox_freeBoxes in Hg.
    destruct Hg as (_ & [(_ & Hg) | (f & _ & Hf & Hg)]); [assumption|].
    apply (splitFreeBox_strip f box g Hg Hf). }
  assert (Hpushed : forall s, In s strips ->
                              In s (Packer.splitLoop box [] (Packer.freeBoxes p))).
  { intros s Hs. rewrite splitLoop_closed. cbn [app]. apply in_or_app. right.
    apply in_flat_map. exists freeBox. split; [assumption|].
    unfold residuals. rewrite Hsep. exact Hs. }
  split; [|split; [exact Hfree|split; [apply Packer.splitFreeBox_length|]]].
  - intros Hq. rewrite Forall_forall in Hfree. apply Hfree in Hq. congruence.
  - split; [|split].
    + intros s Hs. split; [now apply Hpushed|].
      apply addPackedBox_covers; [now apply Hpushed|].
      apply (splitFreeBox_strip freeBox box s Hs Hsep).
    + apply Forall_forall. intros s Hs.
      destruct (splitFreeBox_strip freeBox box s Hs Hsep)
        as (Hi & _ & _ & _ & Hns & Hpos).
      destruct (Hpos Hw Hh) as [Hws Hhs].
      repeat split; try assumption.
      * unfold Box.square. lia.
      * apply Hi.
      * apply Hi.
      * apply Hi.
      * apply Hi.
      * now apply isSeparated_false_iff.
    + intros x y. now apply splitFreeBox_cover.
Qed.

(** The theorem on a 100x100 container whose free box is split by a 40x60
    box at the origin. *)
Lemma addPackedBox_splits_overlapped_witness :
  let p := Packer.prepare (Packer.addBox (Packer.new 100 100) 60 40 1) in
  let box := Box.setCoord Box.new 0 0 40 60 in
  let freeBox := Box.createFromCoord 0 0 100 100 in
  Box.isSeparated freeBox box = true /\
  Packer.splitFreeBox [] freeBox box
  = [Box.createFromCoord 0 60 100 100; Box.createFromCoord 40 0 100 100] /\
  ~ In freeBox (Packer.freeBoxes (Packer.addPackedBox p box)).
Proof.
  cbv zeta. split; [reflexivity|]. split; [reflexivity|].
  apply (addPackedBox_splits_overlapped
           (Packer.prepare (Packer.addBox (Packer.new 100 100) 60 40 1))
           (Box.setCoord Box.new 0 0 40 60)
           (Box.createFromCoord 0 0 100 100)).
  - vm_compute. left. reflexivity.
  - vm_compute. reflexivity.
  - vm_compute. reflexivity.
  - reflexivity.
Defined.

(** ** The candidate chosen by a turn of the loop of [pack] *)

Lemma tryFreeBox_searchState (p : Packer.t) (box freeBox : Box.t)
      (st : Box.t * Z) :
  In freeBox (Packer.freeBoxes p) ->
  searchState p box st -> searchState p box (Packer.tryFreeBox p box st freeBox).
Proof.
  intros Hin Hst. destruct st as [tb sc]. unfold Packer.tryFreeBox.
  set (s1 := Packer.calculateScore p (Box.left freeBox) (Box.top freeBox)
               (Box.left freeBox + Box.width box)
               (Box.top freeBox + Box.height box)).
  set (s2 := Packer.calculateScore p (Box.left freeBox) (Box.top freeBox)
               (Box.left freeBox + Box.height box)
               (Box.top freeBox + Box.width box)).
  assert (Hsc : -1 <= sc).
  { destruct Hst as [Hst | [Hst _]]; cbn in Hst; lia. }
  destruct ((Box.width freeBox >=? Box.width box) &&
            (Box.height freeBox >=? Box.height box)) eqn:Hfit1;
    [destruct (s1 >? sc) eqn:Hs1|];
    (destruct ((Box.width freeBox >=? Box.height box) &&
               (Box.height freeBox >=? Box.width box)) eqn:Hfit2;
     [match goal with |- context [?a >? ?b] => destruct (a >? b) eqn:Hs2 end|]);
    try exact Hst;
    right; cbn [fst snd]; (split; [lia|]); exists freeBox;
    (split; [exact Hin|]); unfold placedAtCorner; cbn; lia.
Qed.

Lemma fold_tryFreeBox_searchState (p : Packer.t) (box : Box.t)
      (l : list Box.t) :
  forall st,
    (forall f, In f l -> In f (Packer.freeBoxes p)) ->
    searchState p box st ->
    searchState p box (fold_left (Packer.tryFreeBox p box) l st).
Proof.
  induction l as [|f l IH]; intros st Hl Hst; cbn [fold_left]; [assumption|].
  apply IH; [intros g Hg; apply Hl; now right|].
  apply tryFreeBox_searchState; [apply Hl; now left | assumption].
Qed.

(** [findBoxPosition] leaves in [testBox] the identifier of the box and
    either the mark -1, or a mark larger than -1 and a place for the box in
    a free box. *)
Lemma findBoxPosition_spec (p : Packer.t) (box testBox : Box.t) :
  let tb := Packer.findBoxPosition p box testBox in
  Box.id tb = Box.id box /\
  (Box.mark tb = -1 \/
   (-1 < Box.mark tb /\
    exists freeBox, In freeBox (Packer.freeBoxes p) /\
                    placedAtCorner freeBox box tb)).
Proof.
  unfold Packer.findBoxPosition.
  pose proof (fold_tryFreeBox_searchState p box (Packer.freeBoxes p)
                (Box.setMark testBox 0, -1) (fun f H => H)
                (or_introl eq_refl)) as Hst.
  destruct (fold_left (Packer.tryFreeBox p box) (Packer.freeBoxes p)
                      (Box.setMark testBox 0, -1)) as [tb sc].
  cbn. split; [reflexivity|].
  destruct Hst as [Hst | (Hsc & f & Hf & Hp)]; cbn in *; [now left|].
  right. split; [assumption|]. exists f. split; [assumption|]. exact Hp.
Qed.

(** The [for] loop of [pack] chooses a box that is not marked and a place
    for it in a free box. *)
Lemma findBest_spec (p : Packer.t) (bs : list Box.t) :
  forall i testBox bestScore best testBox' bestScore' k bestBox,
    Packer.findBest p bs i testBox bestScore best
    = (testBox', bestScore', Some (k, bestBox)) ->
    0 <= bestScore ->
    best = Some (k, bestBox) \/
    (exists b, nth_error bs (k - i) = Some b /\ (i <= k)%nat /\
               Box.needRemove b = false /\ candidate p b bestBox).
Proof.
  induction bs as [|b bs IH]; cbn [Packer.findBest];
    intros i tb sc best tb' sc' k bb H Hsc.
  - inversion H; subst. now left.
  - assert (Hshift : forall b1,
               nth_error bs (k - S i) = Some b1 -> (S i <= k)%nat ->
               nth_error (b :: bs) (k - i) = Some b1).
    { intros b1 Hn Hle. replace (k - i)%nat with (S (k - S i)) by lia.
      exact Hn. }
    destruct (Box.needRemove b) eqn:Hb.
    + apply IH in H; [|assumption].
      destruct H as [H | (b1 & Hn & Hle & Hr & Hc)]; [now left|].
      right. exists b1. split; [auto|]. split; [lia|]. split; assumption.
    + pose proof (findBoxPosition_spec p b tb) as Hfb. cbv zeta in Hfb.
      destruct (Box.mark (Packer.findBoxPosition p b tb) >? sc) eqn:Hgt.
      * apply IH in H; [|lia].
        destruct H as [H | (b1 & Hn & Hle & Hr & Hc)].
        -- inversion H; subst. right. exists b. rewrite Nat.sub_diag.
           split; [reflexivity|]. split; [lia|]. split; [assumption|].
           split; [cbn; apply Hfb|]. split; [reflexivity|].
           destruct Hfb as (_ & [Hm | (_ & f & Hf & Hp)]); [lia|].
           exists f. split; [assumption|]. exact Hp.
        -- right. exists b1. split; [auto|]. split; [lia|]. split; assumption.
      * apply IH in H; [|assumption].
        destruct H as [H | (b1 & Hn & Hle & Hr & Hc)]; [now left|].
        right. exists b1. split; [auto|]. split; [lia|]. split; assumption.
Qed.

(** ** Every box is accounted for *)

Lemma insertSorted_perm (x : Box.t) (l : list Box.t) :
  Permutation (Packer.insertSorted x l) (x :: l).
Proof.
  induction l as [|y l IH]; cbn; [reflexivity|].
  destruct (Packer.compareBoxes x y <=? 0); [reflexivity|].
  rewrite IH. apply perm_swap.
Qed.

Lemma sortBoxes_perm (l : list Box.t) : Permutation (Packer.sortBoxes l) l.
Proof.
  induction l as [|x l IH]; cbn; [reflexivity|].
  rewrite insertSorted_perm. now constructor.
Qed.


Lemma remaining_all (l : list Box.t) :
  Forall (fun b => Box.needRemove b = false) l -> Packer.remaining l = l.
Proof.
  unfold Packer.remaining.
  induction 1 as [|b l Hb _ IH]; cbn; [reflexivity|]. now rewrite Hb, IH.
Qed.

Lemma markRemoved_remaining_perm (bs : list Box.t) :
  forall k b,
    nth_error bs k = Some b -> Box.needRemove b = false ->
    Permutation (b :: Packer.remaining (Packer.markRemoved k bs))
                (Packer.remaining bs).
Proof.
  unfold Packer.remaining.
  induction bs as [|b0 bs IH]; intros [|k] b Hn Hb; cbn in Hn;
    try discriminate.
  - inversion Hn; subst. cbn. rewrite Hb. reflexivity.
  - cbn. specialize (IH _ _ Hn Hb). destruct (Box.needRemove b0); cbn.
    + assumption.
    + rewrite perm_swap. now constructor.
Qed.

Lemma candidate_sameRectangle (p : Packer.t) (box bestBox : Box.t) :
  candidate p box bestBox -> sameRectangle bestBox box.
Proof.
  intros (Hid & _ & f & _ & Hp). split; [assumption|]. apply Hp.
Qed.

Lemma findBest_chosen (p : Packer.t) (testBox testBox' : Box.t) (score : Z)
      (k : nat) (bestBox : Box.t) :
  Packer.findBest p (Packer.boxes p) 0 testBox 0 None
  = (testBox', score, Some (k, bestBox)) ->
  exists b, nth_error (Packer.boxes p) k = Some b /\
            Box.needRemove b = false /\ candidate p b bestBox.
Proof.
  intros H. apply findBest_spec in H; [|lia].
  destruct H as [H | (b & Hn & _ & Hr & Hc)]; [discriminate|].
  rewrite Nat.sub_0_r in Hn. eauto.
Qed.

Lemma packLoop_accounted (boxes0 : list Box.t) (p : Packer.t)
      (testBox : Box.t) :
  accounted boxes0 p -> accounted boxes0 (Packer.packLoop p testBox).
Proof.
  apply packLoop_invariant. clear p testBox.
  intros p tb tb' sc k bb (sources & HF & HP) Hbest.
  apply findBest_chosen in Hbest. destruct Hbest as (b & Hn & Hr & Hc).
  exists (sources ++ [b]). cbn. split.
  - apply Forall2_app; [assumption|]. constructor; [|constructor].
    eapply candidate_sameRectangle; eassumption.
  - rewrite <- app_assoc. cbn [app].
    rewrite (markRemoved_remaining_perm _ _ _ Hn Hr). assumption.
Qed.

(** [pack] on an engine that is not prepared: the rejected boxes are the
    bad boxes of [boxes], and the placed boxes and the boxes that are not
    placed share the others. *)
Lemma pack_unprepared (p : Packer.t) :
  Packer.isPrepared p = false ->
  Forall (fun b => Box.needRemove b = false) (Packer.boxes p) ->
  let q := snd (Packer.pack p) in
  Packer.badBoxes q = filter (Packer.isBadBox p) (Packer.boxes p) /\
  exists sources,
    Forall2 sameRectangle (Packer.packedBoxes q) sources /\
    Permutation (sources ++ Packer.notPlacedBoxes q)
                (filter (fun b => negb (Packer.isBadBox p b)) (Packer.boxes p)).
Proof.
  intros Hprep Hflags. unfold Packer.pack. rewrite Hprep. cbn [snd].
  set (p1 := Packer.prepare p).
  destruct (packLoop_frame p1 Box.new) as (_ & _ & Hbad & Hnot & _ & _).
  cbn [Packer.collectNotPlaced Packer.badBoxes Packer.notPlacedBoxes
       Packer.packedBoxes].
  rewrite Hbad, Hnot. split; [reflexivity|].
  change (Packer.notPlacedBoxes p1) with (@nil Box.t). cbn [app].
  assert (Hacc : accounted (Packer.boxes p1) p1).
  { exists []. split; [constructor|]. cbn [app].
    rewrite remaining_all; [reflexivity|].
    cbn. eapply Permutation_Forall; [symmetry; apply sortBoxes_perm|].
    apply Forall_forall. intros b Hb. apply filter_In in Hb.
    rewrite Forall_forall in Hflags. now apply Hflags. }
  apply (packLoop_accounted _ _ Box.new) in Hacc.
  destruct Hacc as (sources & HF & HP). exists sources.
  split; [assumption|]. rewrite HP. cbn. apply sortBoxes_perm.
Qed.

(** ** Sequences of calls *)

Lemma addBoxes_boxes (l : list (Z * Z * Z)) :
  forall p, Packer.boxes (addBoxes p l) = Packer.boxes p ++ map boxOfCall l.
Proof.
  unfold addBoxes.
  induction l as [|[[w h] i] l IH]; intros p; cbn [fold_left map].
  - now rewrite app_nil_r.
  - rewrite IH. cbn. rewrite <- app_assoc. reflexivity.
Qed.

Lemma addBoxes_frame (l : list (Z * Z * Z)) :
  forall p,
    Packer.containerWidth (addBoxes p l) = Packer.containerWidth p /\
    Packer.containerHeight (addBoxes p l) = Packer.containerHeight p /\
    (Packer.isPrepared p = false -> Packer.isPrepared (addBoxes p l) = false).
Proof.
  unfold addBoxes.
  induction l as [|[[w h] i] l IH]; intros p; cbn [fold_left]; [auto|].
  destruct (IH (Packer.addBox p w h i)) as (Hw & Hh & Hp).
  rewrite Hw, Hh. cbn. auto.
Qed.

Lemma isBadBox_container (p q : Packer.t) (b : Box.t) :
  Packer.containerWidth p = Packer.containerWidth q ->
  Packer.containerHeight p = Packer.containerHeight q ->
  Packer.isBadBox p b = Packer.isBadBox q b.
Proof. unfold Packer.isBadBox. intros -> ->. reflexivity. Qed.

Lemma boxOfCall_not_marked (l : list (Z * Z * Z)) :
  Forall (fun b => Box.needRemove b = false) (map boxOfCall l).
Proof.
  apply Forall_forall. intros b Hb. apply in_map_iff in Hb.
  destruct Hb as ([[w h] i] & <- & _). reflexivity.
Qed.

(** Between two calls no box of [boxes] is marked. *)
Lemma reachable_not_marked (p : Packer.t) :
  reachable p -> Forall (fun b => Box.needRemove b = false) (Packer.boxes p).
Proof.
  induction 1 as [cw ch | p w h _ IH | p _ IH | p w h i _ IH | p _ IH
                  | p _ IH | p _ IH].
  - constructor.
  - exact IH.
  - constructor.
  - cbn. apply Forall_app. split; [exact IH|]. repeat constructor.
  - cbn. eapply Permutation_Forall; [symmetry; apply sortBoxes_perm|].
    apply Forall_forall. intros b Hb. apply filter_In in Hb.
    rewrite Forall_forall in IH. now apply IH.
  - cbn. apply Forall_forall. intros b Hb. apply in_map_iff in Hb.
    destruct Hb as (b0 & <- & _). reflexivity.
  - unfold Packer.fullness. cbn [snd].
    destruct (js_is_minus_one (Packer._fullness p)); [cbn|]; exact IH.
Qed.




(** ** Rejected boxes *)






(** ** Placed boxes do not overlap and stay in the container *)

Lemma ForallOrdPairs_snoc (R : Box.t -> Box.t -> Prop) (l : list Box.t)
      (x : Box.t) :
  ForallOrdPairs R l -> Forall (fun a => R a x) l ->
  ForallOrdPairs R (l ++ [x]).
Proof.
  induction 1 as [|a l Ha _ IH]; intros Hx; cbn.
  - constructor; constructor.
  - inversion Hx; subst. constructor; [|now apply IH].
    apply Forall_app. split; [assumption|]. now constructor.
Qed.

Lemma ForallOrdPairs_nth (R : Box.t -> Box.t -> Prop) (l : list Box.t) :
  ForallOrdPairs R l ->
  forall i j a b,
    (i < j)%nat -> nth_error l i = Some a -> nth_error l j = Some b -> R a b.
Proof.
  induction 1 as [|x l Hx _ IH]; intros i j a b Hij Hi Hj.
  - destruct i; discriminate.
  - destruct j as [|j]; [lia|]. cbn in Hj. destruct i as [|i].
    + cbn in Hi. inversion Hi; subst. rewrite Forall_forall in Hx.
      apply Hx. eapply nth_error_In; eassumption.
    + cbn in Hi. eapply IH; [|eassumption..]. lia.
Qed.

Lemma markRemoved_Forall (P : Box.t -> Prop) (bs : list Box.t) :
  (forall b, P b -> P (Box.setNeedRemove b true)) ->
  Forall P bs -> forall k, Forall P (Packer.markRemoved k bs).
Proof.
  intros HP. induction 1 as [|b bs Hb Hbs IH]; intros [|k]; cbn;
    constructor; auto.
Qed.

(** The place that [pack] commits lies in a free box. *)
Lemma candidate_inside (p : Packer.t) (box bestBox : Box.t) :
  Forall (fun f => insideContainer p f /\ coherent f /\
                   Box.needRemove f = false) (Packer.freeBoxes p) ->
  0 < Box.width box -> 0 < Box.height box ->
  candidate p box bestBox ->
  coherent bestBox /\ 0 < Box.width bestBox /\ 0 < Box.height bestBox /\
  exists f, In f (Packer.freeBoxes p) /\ insideOf bestBox f.
Proof.
  intros Hfree Hw Hh (_ & _ & f & Hf & Hp).
  rewrite Forall_forall in Hfree. destruct (Hfree f Hf) as (_ & Hco & _).
  unfold placedAtCorner in Hp. unfold coherent in *.
  repeat split; try lia. exists f. split; [assumption|].
  unfold insideOf. lia.
Qed.

Lemma wellPacked_step (p : Packer.t) (k : nat) (box bestBox : Box.t) :
  wellPacked p ->
  nth_error (Packer.boxes p) k = Some box ->
  candidate p box bestBox ->
  wellPacked
    (Packer.setBoxes
       (Packer.addPackedBox p bestBox)
       (Packer.markRemoved k (Packer.boxes (Packer.addPackedBox p bestBox)))).
Proof.
  intros [Hfree Hpacked Hfp Hdis Hboxes] Hn Hc.
  assert (Hbox : 0 < Box.width box /\ 0 < Box.height box).
  { rewrite Forall_forall in Hboxes. apply Hboxes.
    eapply nth_error_In; eassumption. }
  destruct (candidate_inside p box bestBox Hfree (proj1 Hbox) (proj2 Hbox) Hc)
    as (Hco & Hw & Hh & f0 & Hf0 & Hin0).
  pose proof Hfree as Hfree'. rewrite Forall_forall in Hfree'.
  assert (Hnew : forall g,
             In g (Packer.freeBoxes (Packer.addPackedBox p bestBox)) ->
             Box.needRemove g = false /\ coherent g /\
             ~ interiorsOverlap g bestBox /\
             exists f, In f (Packer.freeBoxes p) /\ insideOf g f).
  { intros g Hg. apply addPackedBox_freeBoxes in Hg.
    destruct Hg as (Hfg & [(Hg & Hs) | (f & Hf & Hs & Hg)]).
    - split; [assumption|]. split; [apply (Hfree' g Hg)|].
      split; [now apply isSeparated_false_iff|].
      exists g. split; [assumption | apply insideOf_refl].
    - destruct (splitFreeBox_strip f bestBox g Hg Hs)
        as (Hi & Hgw & Hgh & _ & Hns & _).
      split; [assumption|]. split; [split; assumption|].
      split; [now apply isSeparated_false_iff|]. eauto. }
  constructor; cbn [Packer.setBoxes Packer.freeBoxes Packer.packedBoxes
                    Packer.boxes Packer.containerWidth Packer.containerHeight].
  - apply Forall_forall. intros g Hg.
    destruct (Hnew g Hg) as (Hfg & Hcg & _ & f & Hf & Hi).
    split; [|split; assumption].
    destruct (Hfree' f Hf) as (Hic & _). unfold insideContainer, insideOf in *.
    cbn. lia.
  - cbn [Packer.addPackedBox Packer.packedBoxes]. apply Forall_app. split.
    + exact Hpacked.
    + constructor; [|constructor].
      destruct (Hfree' f0 Hf0) as (Hic & _).
      split; [|split; [exact Hco | split; assumption]].
      unfold insideContainer, insideOf in *. cbn. lia.
  - intros g q Hg Hq. destruct (Hnew g Hg) as (_ & _ & Hnb & f & Hf & Hi).
    cbn [Packer.addPackedBox Packer.packedBoxes] in Hq.
    apply in_app_or in Hq. destruct Hq as [Hq | [<- | []]]; [|assumption].
    specialize (Hfp f q Hf Hq). unfold interiorsOverlap, insideOf in *. lia.
  - cbn [Packer.addPackedBox Packer.packedBoxes].
    apply ForallOrdPairs_snoc; [assumption|].
    apply Forall_forall. intros q Hq. specialize (Hfp f0 q Hf0 Hq).
    unfold interiorsOverlap, insideOf in *. lia.
  - cbn. apply markRemoved_Forall; [|assumption]. intros b Hb. exact Hb.
Qed.

Lemma prepare_wellPacked (p : Packer.t) : wellPacked (Packer.prepare p).
Proof.
  constructor; cbn.
  - repeat constructor; cbn; lia.
  - constructor.
  - intros f q _ [].
  - constructor.
  - eapply Permutation_Forall; [symmetry; apply sortBoxes_perm|].
    apply Forall_forall. intros b Hb. apply filter_In in Hb.
    destruct Hb as [_ Hb]. unfold Packer.isBadBox in Hb. cbn in Hb. lia.
Qed.

Lemma packLoop_wellPacked (p : Packer.t) (testBox : Box.t) :
  wellPacked p -> wellPacked (Packer.packLoop p testBox).
Proof.
  apply packLoop_invariant. clear p testBox.
  intros p tb tb' sc k bb Hwp Hbest.
  apply findBest_chosen in Hbest. destruct Hbest as (b & Hn & _ & Hc).
  eapply wellPacked_step; eassumption.
Qed.

Lemma isSeparated_sym (a b : Box.t) :
  Box.isSeparated a b = Box.isSeparated b a.
Proof. unfold Box.isSeparated. lia. Qed.

(** The placed boxes returned by a [pack] that prepares. *)
Lemma pack_unprepared_placed (p : Packer.t) :
  Packer.isPrepared p = false ->
  let r := fst (Packer.pack p) in
  (forall i j a b,
      i <> j -> nth_error r i = Some a -> nth_error r j = Some b ->
      Box.isSeparated a b = false) /\
  Forall (fun b => insideContainer p b /\ coherent b /\
                   0 < Box.width b /\ 0 < Box.height b) r.
Proof.
  intros Hprep. unfold Packer.pack. rewrite Hprep. cbn [fst].
  cbn [Packer.collectNotPlaced Packer.packedBoxes].
  destruct (packLoop_wellPacked (Packer.prepare p) Box.new
                                (prepare_wellPacked p))
    as [_ Hpacked _ Hdis _].
  destruct (packLoop_frame (Packer.prepare p) Box.new) as (Hcw & Hch & _).
  split.
  - intros i j a b Hij Hi Hj. apply isSeparated_false_iff.
    destruct (Nat.lt_ge_cases i j) as [Hlt | Hge].
    + exact (ForallOrdPairs_nth _ _ Hdis i j a b Hlt Hi Hj).
    + assert (Hlt : (j < i)%nat) by lia.
      pose proof (ForallOrdPairs_nth _ _ Hdis j i b a Hlt Hj Hi) as Hba.
      unfold interiorsOverlap in *. lia.
  - eapply Forall_impl; [|exact Hpacked]. cbn beta.
    intros b (Hic & Hrest). split; [|exact Hrest].
    unfold insideContainer in *. rewrite Hcw, Hch in Hic. exact Hic.
Qed.

(** C1: on an engine made with positive container dimensions of at most
    [2 ^ 53], after any sequence of [addBox] calls, the boxes that a single
    [pack] returns are such that [Box.isSeparated], the strict test, is
    false of any two of them at different indices, and each of them lies
    in the container.  Within that bound [left + width] and [top + height]
    are not rounded. *)
Theorem placed_boxes_disjoint_in_container
        (cw ch : Z) (calls : list (Z * Z * Z)) :
  0 < cw -> 0 < ch -> cw <= 2 ^ 53 -> ch <= 2 ^ 53 ->
  let r := fst (Packer.pack (addBoxes (Packer.new cw ch) calls)) in
  (forall i j a b,
      i <> j -> nth_error r i = Some a -> nth_error r j = Some b ->
      Box.isSeparated a b = false) /\
  Forall (fun b => 0 <= Box.left b /\ 0 <= Box.top b /\
                   Box.right b <= cw /\ Box.bottom b <= ch) r.
Proof.
  intros _ _ _ _ r.
  destruct (pack_unprepared_placed (addBoxes (Packer.new cw ch) calls))
    as [Hdis Hin].
  { apply addBoxes_frame. reflexivity. }
  split; [exact Hdis|].
  eapply Forall_impl; [|exact Hin]. cbn beta. intros b (Hic & _).
  destruct (addBoxes_frame calls (Packer.new cw ch)) as (Hcw & Hch & _).
  unfold insideContainer in Hic. rewrite Hcw, Hch in Hic. exact Hic.
Qed.

(** The theorem on scenario B: two 50x100 boxes tile a 100x100
    container and share the edge x = 50. *)
Lemma placed_boxes_disjoint_in_container_witness :
  let r := fst (Packer.pack
                  (addBoxes (Packer.new 100 100)
                            [(50, 100, 1); (50, 100, 2)])) in
  map bounds r = [(0, 0, 50, 100, 1); (50, 0, 100, 100, 2)] /\
  (forall i j a b,
      i <> j -> nth_error r i = Some a -> nth_error r j = Some b ->
      Box.isSeparated a b = false) /\
  Forall (fun b => 0 <= Box.left b /\ 0 <= Box.top b /\
                   Box.right b <= 100 /\ Box.bottom b <= 100) r.
Proof.
  split; [reflexivity|].
  apply (placed_boxes_disjoint_in_container
           100 100 [(50, 100, 1); (50, 100, 2)]); lia.
Defined.

(** C1 fails as stated: the two boxes that [pack] places in scenario B
    share the edge x = 50, so their closed bounds meet on both axes, while
    [Box.isSeparated] is false of them. *)
Lemma placed_boxes_closed_bounds_meet :
  let r := fst (Packer.pack
                  (addBoxes (Packer.new 100 100)
                            [(50, 100, 1); (50, 100, 2)])) in
  exists a b,
    nth_error r 0 = Some a /\ nth_error r 1 = Some b /\
    bounds a = (0, 0, 50, 100, 1) /\ bounds b = (50, 0, 100, 100, 2) /\
    closedIntervalsIntersect a b = true /\
    Box.isSeparated a b = false.
Proof.
  eexists. eexists.
  split; [vm_compute; reflexivity|].
  split; [vm_compute; reflexivity|].
  repeat split; reflexivity.
Qed.

(** ** Scores *)

Lemma commonIntervalLength_nonneg (a1 a2 b1 b2 : Z) :
  a1 <= a2 -> b1 <= b2 -> 0 <= Packer.commonIntervalLength a1 a2 b1 b2.
Proof.
  intros Ha Hb. unfold Packer.commonIntervalLength.
  destruct ((a2 <? b1) || (b2 <? a1)) eqn:H; lia.
Qed.

Lemma commonIntervalLength_overlap (a1 a2 b1 b2 : Z) :
  a1 < a2 -> b1 < b2 -> a1 < b2 -> b1 < a2 ->
  0 < Packer.commonIntervalLength a1 a2 b1 b2.
Proof.
  intros Ha0 Hb0 Ha Hb. unfold Packer.commonIntervalLength.
  destruct ((a2 <? b1) || (b2 <? a1)) eqn:H; lia.
Qed.

Lemma seamScore_mono (l tp r bt score : Z) (box : Box.t) :
  l <= r -> tp <= bt ->
  Box.left box <= Box.right box -> Box.top box <= Box.bottom box ->
  score <= seamScore l tp r bt score box.
Proof.
  intros Hlr Htb Hb1 Hb2. unfold seamScore.
  pose proof (commonIntervalLength_nonneg (Box.top box) (Box.bottom box)
                                          tp bt Hb2 Htb).
  pose proof (commonIntervalLength_nonneg (Box.left box) (Box.right box)
                                          l r Hb1 Hlr).
  destruct ((Box.left box =? r) || (Box.right box =? l));
    destruct ((Box.top box =? bt) || (Box.bottom box =? tp)); lia.
Qed.

Lemma seamScore_left_seam (l tp r bt score : Z) (box : Box.t) :
  l <= r -> tp < bt ->
  Box.left box <= Box.right box -> Box.top box < Box.bottom box ->
  Box.right box = l -> Box.top box < bt -> tp < Box.bottom box ->
  score < seamScore l tp r bt score box.
Proof.
  intros Hlr Htb Hb1 Hb2 Hseam Ho1 Ho2. unfold seamScore.
  pose proof (commonIntervalLength_overlap (Box.top box) (Box.bottom box)
                                           tp bt Hb2 Htb Ho1 Ho2).
  pose proof (commonIntervalLength_nonneg (Box.left box) (Box.right box)
                                          l r Hb1 Hlr).
  destruct ((Box.left box =? r) || (Box.right box =? l)) eqn:Hc; [|lia].
  destruct ((Box.top box =? bt) || (Box.bottom box =? tp)); lia.
Qed.

Lemma fold_seamScore_mono (l tp r bt : Z) (boxes : list Box.t) :
  l <= r -> tp <= bt ->
  Forall (fun q => Box.left q <= Box.right q /\ Box.top q <= Box.bottom q)
         boxes ->
  forall score, score <= fold_left (seamScore l tp r bt) boxes score.
Proof.
  intros Hlr Htb. induction 1 as [|q boxes (Hq1 & Hq2) _ IH]; intros score;
    cbn [fold_left]; [lia|].
  pose proof (seamScore_mono l tp r bt score q Hlr Htb Hq1 Hq2).
  specialize (IH (seamScore l tp r bt score q)). lia.
Qed.

Lemma fold_seamScore_left_seam (l tp r bt : Z) (boxes : list Box.t)
      (q : Box.t) :
  l <= r -> tp <= bt ->
  Forall (fun q => Box.left q <= Box.right q /\ Box.top q <= Box.bottom q)
         boxes ->
  In q boxes ->
  tp < bt -> Box.top q < Box.bottom q ->
  Box.right q = l -> Box.top q < bt -> tp < Box.bottom q ->
  forall score, score < fold_left (seamScore l tp r bt) boxes score.
Proof.
  intros Hlr Htb HF Hq Htb' Hqtb Hseam Ho1 Ho2.
  induction HF as [|q0 boxes (Hq1 & Hq2) HF IH]; intros score;
    [contradiction|].
  cbn [fold_left]. destruct Hq as [-> | Hq].
  - pose proof (seamScore_left_seam l tp r bt score q Hlr Htb' Hq1 Hqtb
                                    Hseam Ho1 Ho2).
    pose proof (fold_seamScore_mono l tp r bt boxes Hlr Htb HF
                                    (seamScore l tp r bt score q)).
    lia.
  - pose proof (seamScore_mono l tp r bt score q0 Hlr Htb Hq1 Hq2).
    specialize (IH Hq (seamScore l tp r bt score q0)). lia.
Qed.

Lemma calculateScore_unfold (p : Packer.t) (l tp r bt : Z) :
  Packer.calculateScore p l tp r bt
  = fold_left (seamScore l tp r bt) (Packer.packedBoxes p)
      ((if (tp =? 0) || (bt =? Packer.containerHeight p)
        then (if (l =? 0) || (r =? Packer.containerWidth p)
              then 0 + (bt - tp) else 0) + (r - l)
        else if (l =? 0) || (r =? Packer.containerWidth p)
             then 0 + (bt - tp) else 0)).
Proof.
  unfold Packer.calculateScore, seamScore.
  destruct ((tp =? 0) || (bt =? Packer.containerHeight p)); reflexivity.
Qed.

(** A place against the left edge of the container has a positive
    score. *)
Lemma calculateScore_left_edge (p : Packer.t) (tp r bt : Z) :
  Forall (fun q => Box.left q <= Box.right q /\ Box.top q <= Box.bottom q)
         (Packer.packedBoxes p) ->
  0 <= r -> tp < bt -> 0 < Packer.calculateScore p 0 tp r bt.
Proof.
  intros HF Hr Htb. rewrite calculateScore_unfold.
  match goal with |- _ < fold_left _ _ ?s =>
    pose proof (fold_seamScore_mono 0 tp r bt (Packer.packedBoxes p)
                  Hr (Z.lt_le_incl _ _ Htb) HF s) as Hm;
    assert (0 < s) end; [|lia].
  cbn [Z.eqb orb].
  destruct ((tp =? 0) || (bt =? Packer.containerHeight p)); lia.
Qed.

(** A place whose left side runs along the right side of a placed box has
    a positive score. *)
Lemma calculateScore_left_seam (p : Packer.t) (l tp r bt : Z) (q : Box.t) :
  Forall (fun q => Box.left q <= Box.right q /\ Box.top q <= Box.bottom q)
         (Packer.packedBoxes p) ->
  In q (Packer.packedBoxes p) ->
  l <= r -> tp < bt -> Box.top q < Box.bottom q ->
  Box.right q = l -> Box.top q < bt -> tp < Box.bottom q ->
  0 < Packer.calculateScore p l tp r bt.
Proof.
  intros HF Hq Hlr Htb Hqtb Hseam Ho1 Ho2. rewrite calculateScore_unfold.
  match goal with |- _ < fold_left _ _ ?s =>
    pose proof (fold_seamScore_left_seam l tp r bt (Packer.packedBoxes p) q
                  Hlr (Z.lt_le_incl _ _ Htb) HF Hq Htb Hqtb Hseam Ho1 Ho2 s)
      as Hm;
    assert (0 <= s) end; [|lia].
  destruct ((tp =? 0) || (bt =? Packer.containerHeight p));
    destruct ((l =? 0) || (r =? Packer.containerWidth p)); lia.
Qed.

(** ** The score that [findBoxPosition] leaves in the mark *)

Lemma tryFreeBox_score (p : Packer.t) (box freeBox : Box.t) (st : Box.t * Z) :
  let st' := Packer.tryFreeBox p box st freeBox in
  snd st <= snd st' /\
  (Box.width box <= Box.width freeBox ->
   Box.height box <= Box.height freeBox ->
   Packer.calculateScore p (Box.left freeBox) (Box.top freeBox)
                         (Box.left freeBox + Box.width box)
                         (Box.top freeBox + Box.height box) <= snd st') /\
  (Box.height box <= Box.width freeBox ->
   Box.width box <= Box.height freeBox ->
   Packer.calculateScore p (Box.left freeBox) (Box.top freeBox)
                         (Box.left freeBox + Box.height box)
                         (Box.top freeBox + Box.width box) <= snd st').
Proof.
  destruct st as [tb sc]. unfold Packer.tryFreeBox.
  set (s1 := Packer.calculateScore p (Box.left freeBox) (Box.top freeBox)
               (Box.left freeBox + Box.width box)
               (Box.top freeBox + Box.height box)).
  set (s2 := Packer.calculateScore p (Box.left freeBox) (Box.top freeBox)
               (Box.left freeBox + Box.height box)
               (Box.top freeBox + Box.width box)).
  destruct ((Box.width freeBox >=? Box.width box) &&
            (Box.height freeBox >=? Box.height box)) eqn:Hfit1;
    [destruct (s1 >? sc) eqn:Hs1|];
    (destruct ((Box.width freeBox >=? Box.height box) &&
               (Box.height freeBox >=? Box.width box)) eqn:Hfit2;
     [match goal with |- context [?a >? ?b] => destruct (a >? b) eqn:Hs2 end|]);
    cbn [fst snd]; lia.
Qed.

Lemma fold_tryFreeBox_score (p : Packer.t) (box : Box.t) (l : list Box.t) :
  forall st,
    let st' := fold_left (Packer.tryFreeBox p box) l st in
    snd st <= snd st' /\
    forall f, In f l ->
      (Box.width box <= Box.width f -> Box.height box <= Box.height f ->
       Packer.calculateScore p (Box.left f) (Box.top f)
                             (Box.left f + Box.width box)
                             (Box.top f + Box.height box) <= snd st') /\
      (Box.height box <= Box.width f -> Box.width box <= Box.height f ->
       Packer.calculateScore p (Box.left f) (Box.top f)
                             (Box.left f + Box.height box)
                             (Box.top f + Box.width box) <= snd st').
Proof.
  induction l as [|f0 l IH]; intros st; cbn [fold_left].
  - split; [lia | intros f []].
  - destruct (IH (Packer.tryFreeBox p box st f0)) as [Hmono Hall].
    destruct (tryFreeBox_score p box f0 st) as (H0 & H1 & H2).
    cbv zeta in *. split; [lia|].
    intros f [<- | Hf]; [|now apply Hall].
    split; intros Hw Hh; [specialize (H1 Hw Hh) | specialize (H2 Hw Hh)]; lia.
Qed.

(** The mark that [findBoxPosition] leaves is at least the score of every
    place of the box in a free box. *)
Lemma findBoxPosition_mark (p : Packer.t) (box testBox f : Box.t) :
  In f (Packer.freeBoxes p) ->
  (Box.width box <= Box.width f -> Box.height box <= Box.height f ->
   Packer.calculateScore p (Box.left f) (Box.top f)
                         (Box.left f + Box.width box)
                         (Box.top f + Box.height box)
   <= Box.mark (Packer.findBoxPosition p box testBox)) /\
  (Box.height box <= Box.width f -> Box.width box <= Box.height f ->
   Packer.calculateScore p (Box.left f) (Box.top f)
                         (Box.left f + Box.height box)
                         (Box.top f + Box.width box)
   <= Box.mark (Packer.findBoxPosition p box testBox)).
Proof.
  intros Hf. unfold Packer.findBoxPosition.
  destruct (fold_tryFreeBox_score p box (Packer.freeBoxes p)
                                  (Box.setMark testBox 0, -1)) as [_ Hall].
  specialize (Hall f Hf). cbv zeta in Hall.
  destruct (fold_left (Packer.tryFreeBox p box) (Packer.freeBoxes p)
                      (Box.setMark testBox 0, -1)) as [tb sc].
  exact Hall.
Qed.

(** ** When the loop of [pack] stops *)

Lemma findBest_some (p : Packer.t) (bs : list Box.t) :
  forall i testBox bestScore best0 testBox' bestScore',
    Packer.findBest p bs i testBox bestScore (Some best0)
    <> (testBox', bestScore', None).
Proof.
  induction bs as [|b bs IH]; cbn [Packer.findBest]; intros i tb sc x tb' sc'.
  - congruence.
  - destruct (Box.needRemove b); [apply IH|].
    destruct (Box.mark (Packer.findBoxPosition p b tb) >? sc); apply IH.
Qed.

(** When the [for] loop of [pack] chooses nothing, [findBoxPosition] has
    left a mark that is not above the starting score for every box that is
    not marked. *)
Lemma findBest_none (p : Packer.t) (bs : list Box.t) :
  forall i testBox bestScore testBox' bestScore',
    Packer.findBest p bs i testBox bestScore None
    = (testBox', bestScore', None) ->
    forall b, In b bs -> Box.needRemove b = false ->
              exists testBox0,
                Box.mark (Packer.findBoxPosition p b testBox0) <= bestScore.
Proof.
  induction bs as [|b0 bs IH]; cbn [Packer.findBest];
    intros i tb sc tb' sc' H b Hb Hfb; [contradiction|].
  destruct (Box.needRemove b0) eqn:Hf0.
  - destruct Hb as [-> | Hb]; [congruence|]. eapply IH; eassumption.
  - destruct (Box.mark (Packer.findBoxPosition p b0 tb) >? sc) eqn:Hgt.
    + exfalso. eapply findBest_some. eassumption.
    + destruct Hb as [-> | Hb]; [exists tb; lia|]. eapply IH; eassumption.
Qed.

(** The loop of [pack] stops when as many boxes are placed as there are
    boxes, or when the [for] loop chooses nothing. *)
Lemma packLoop_exit (p : Packer.t) (testBox : Box.t) :
  let q := Packer.packLoop p testBox in
  length (Packer.boxes q) = length (Packer.packedBoxes q) \/
  exists testBox1 testBox2 score,
    Packer.findBest q (Packer.boxes q) 0 testBox1 0 None
    = (testBox2, score, None).
Proof.
  cbv zeta. funelim (Packer.packLoop p testBox).
  - left. now apply Nat.eqb_eq.
  - assumption.
  - right. eauto.
Qed.

Lemma markRemoved_length (bs : list Box.t) :
  forall k, length (Packer.markRemoved k bs) = length bs.
Proof.
  induction bs as [|b bs IH]; intros [|k]; cbn; auto.
Qed.

Lemma packLoop_boxes_length (p : Packer.t) (testBox : Box.t) :
  length (Packer.boxes (Packer.packLoop p testBox)) = length (Packer.boxes p).
Proof.
  apply (packLoop_invariant
           (fun q => length (Packer.boxes q) = length (Packer.boxes p)));
    [|reflexivity].
  intros q tb tb' sc k bb H _. cbn. now rewrite markRemoved_length.
Qed.

(** ** The free boxes cover what is free *)

(** A rectangle of a split free box that the placed box does not overlap
    lies in one of the boxes that [splitFreeBox] pushes. *)
Lemma splitFreeBox_covers_rectangle (freeBox box r : Box.t) :
  Box.isSeparated freeBox box = true ->
  Box.left r < Box.right r -> Box.top r < Box.bottom r ->
  insideOf r freeBox -> ~ interiorsOverlap r box ->
  exists s, In s (Packer.splitFreeBox [] freeBox box) /\ insideOf r s.
Proof.
  intros Hsep Hw Hh Hin Hno. apply isSeparated_iff in Hsep.
  unfold interiorsOverlap, insideOf in *.
  assert (Hcase : Box.bottom r <= Box.top box \/ Box.bottom box <= Box.top r \/
                  Box.right r <= Box.left box \/ Box.right box <= Box.left r)
    by lia.
  destruct Hcase as [Hc | [Hc | [Hc | Hc]]].
  - exists (Box.createFromCoord (Box.left freeBox) (Box.top freeBox)
                                (Box.right freeBox) (Box.top box)).
    split; [apply splitFreeBox_In; left; split; [lia | reflexivity]|].
    cbn. lia.
  - exists (Box.createFromCoord (Box.left freeBox) (Box.bottom box)
                                (Box.right freeBox) (Box.bottom freeBox)).
    split; [apply splitFreeBox_In; right; left; split; [lia | reflexivity]|].
    cbn. lia.
  - exists (Box.createFromCoord (Box.left freeBox) (Box.top freeBox)
                                (Box.left box) (Box.bottom freeBox)).
    split; [apply splitFreeBox_In; right; right; left;
            split; [lia | reflexivity]|].
    cbn. lia.
  - exists (Box.createFromCoord (Box.right box) (Box.top freeBox)
                                (Box.right freeBox) (Box.bottom freeBox)).
    split; [apply splitFreeBox_In; right; right; right;
            split; [lia | reflexivity]|].
    cbn. lia.
Qed.

Lemma freeCovers_step (p : Packer.t) (k : nat) (bestBox : Box.t) :
  wellPacked p -> freeCovers p ->
  freeCovers
    (Packer.setBoxes
       (Packer.addPackedBox p bestBox)
       (Packer.markRemoved k (Packer.boxes (Packer.addPackedBox p bestBox)))).
Proof.
  intros Hwp Hcov r Hw Hh Hic Hno.
  cbn [Packer.setBoxes Packer.freeBoxes Packer.packedBoxes] in *.
  cbn [Packer.addPackedBox Packer.packedBoxes] in Hno.
  destruct (Hcov r Hw Hh) as (f & Hf & Hrf).
  { exact Hic. }
  { intros q Hq. apply Hno. apply in_or_app. now left. }
  assert (Hnb : ~ interiorsOverlap r bestBox).
  { apply Hno. apply in_or_app. right. now left. }
  assert (Hflag : Box.needRemove f = false).
  { pose proof (wp_free p Hwp) as HF. rewrite Forall_forall in HF.
    apply (HF f Hf). }
  destruct (Box.isSeparated f bestBox) eqn:Hsep.
  - destruct (splitFreeBox_covers_rectangle f bestBox r Hsep Hw Hh Hrf Hnb)
      as (s & Hs & Hrs).
    destruct (addPackedBox_covers p bestBox s) as (g & Hg & Hsg).
    + rewrite splitLoop_closed. cbn [app]. apply in_or_app. right.
      apply in_flat_map. exists f. split; [assumption|].
      unfold residuals. now rewrite Hsep.
    + apply (splitFreeBox_strip f bestBox s Hs Hsep).
    + exists g. split; [assumption|]. eapply insideOf_trans; eassumption.
  - destruct (addPackedBox_covers p bestBox f) as (g & Hg & Hfg).
    + rewrite splitLoop_closed. cbn [app]. apply in_or_app. left.
      apply in_map_iff. exists f. split; [|assumption].
      unfold flagIfSeparated. now rewrite Hsep.
    + assumption.
    + exists g. split; [assumption|]. eapply insideOf_trans; eassumption.
Qed.

Lemma prepare_freeCovers (p : Packer.t) : freeCovers (Packer.prepare p).
Proof.
  intros r _ _ Hic _. cbn.
  exists (Box.createFromCoord 0 0 (Packer.containerWidth p)
                              (Packer.containerHeight p)).
  split; [now left|]. unfold insideContainer, insideOf in *. cbn in *. lia.
Qed.

Lemma packLoop_freeCovers (p : Packer.t) (testBox : Box.t) :
  wellPacked p -> freeCovers p ->
  wellPacked (Packer.packLoop p testBox) /\
  freeCovers (Packer.packLoop p testBox).
Proof.
  intros Hwp Hcov.
  apply (packLoop_invariant (fun q => wellPacked q /\ freeCovers q));
    [|now split].
  intros q tb tb' sc k bb [Hwq Hcq] Hbest. split.
  - apply findBest_chosen in Hbest. destruct Hbest as (b & Hn & _ & Hc).
    eapply wellPacked_step; eassumption.
  - now apply freeCovers_step.
Qed.

(** ** A box that fits somewhere has a place of positive score *)

Lemma wellPacked_packed_ordered (p : Packer.t) :
  wellPacked p ->
  Forall (fun q => Box.left q <= Box.right q /\ Box.top q <= Box.bottom q)
         (Packer.packedBoxes p).
Proof.
  intros Hwp. eapply Forall_impl; [|apply (wp_packed p Hwp)]. cbn beta.
  unfold coherent. intros q (_ & (Hw & Hh) & Hpw & Hph). lia.
Qed.

(** Among the free boxes that are large enough for a rectangle, the one
    that is furthest to the left touches the left edge of the container or
    a placed box: the rectangle has a positive score there. *)
Lemma fit_has_positive_score (p : Packer.t) (w h : Z) :
  wellPacked p -> freeCovers p -> 0 < w -> 0 < h ->
  forall n f,
    In f (Packer.freeBoxes p) -> Box.left f = Z.of_nat n ->
    w <= Box.width f -> h <= Box.height f ->
    exists g, In g (Packer.freeBoxes p) /\
              w <= Box.width g /\ h <= Box.height g /\
              0 < Packer.calculateScore p (Box.left g) (Box.top g)
                                        (Box.left g + w) (Box.top g + h).
Proof.
  intros Hwp Hcov Hw Hh n.
  induction n as [n IH] using lt_wf_ind. intros f Hf Hleft Hfw Hfh.
  pose proof (wp_free p Hwp) as Hfree. rewrite Forall_forall in Hfree.
  destruct (Hfree f Hf) as (Hic & (Hcw & Hch) & _).
  pose proof (wellPacked_packed_ordered p Hwp) as Hord.
  destruct (Z.eq_dec (Box.left f) 0) as [Hzero | Hpos].
  - exists f. repeat split; try assumption. rewrite Hzero.
    apply calculateScore_left_edge; [assumption | lia | lia].
  - set (r := Box.mk (w + 1) h (Box.left f - 1) (Box.top f)
                     (Box.left f + w) (Box.top f + h) 0 0 false).
    destruct (existsb (Box.isSeparated r) (Packer.packedBoxes p)) eqn:Hex.
    + apply existsb_exists in Hex. destruct Hex as (q & Hq & Hrq).
      apply isSeparated_iff in Hrq.
      pose proof (wp_free_packed p Hwp f q Hf Hq) as Hfq.
      pose proof (wp_packed p Hwp) as Hpk. rewrite Forall_forall in Hpk.
      destruct (Hpk q Hq) as (_ & (Hqw & Hqh) & Hqpw & Hqph).
      unfold interiorsOverlap in *. cbn in Hrq.
      exists f. repeat split; try assumption.
      apply (calculateScore_left_seam p _ _ _ _ q); try assumption; lia.
    + assert (Hno : forall q, In q (Packer.packedBoxes p) ->
                              ~ interiorsOverlap r q).
      { intros q Hq Hrq. apply isSeparated_iff in Hrq.
        assert (Ht : existsb (Box.isSeparated r) (Packer.packedBoxes p) = true)
          by (apply existsb_exists; eauto).
        congruence. }
      destruct (Hcov r) as (g & Hg & Hrg).
      * cbn. lia.
      * cbn. lia.
      * unfold insideContainer in *. cbn. lia.
      * exact Hno.
      * destruct (Hfree g Hg) as (Hgic & (Hgw & Hgh) & _).
        unfold insideOf, insideContainer in *. cbn in Hrg.
        apply (IH (Z.to_nat (Box.left g))) with (f := g);
          try assumption; lia.
Qed.

(** After a [pack] that prepares, no free box is large enough, in either
    orientation, for a box that is listed as not placed. *)
Lemma pack_unprepared_unplaced (p : Packer.t) :
  Packer.isPrepared p = false ->
  Forall (fun b => Box.needRemove b = false) (Packer.boxes p) ->
  let q := snd (Packer.pack p) in
  forall b f,
    In b (Packer.notPlacedBoxes q) -> In f (Packer.freeBoxes q) ->
    accommodates f b = false.
Proof.
  intros Hprep Hflags. unfold Packer.pack. rewrite Hprep. cbn [snd].
  set (p1 := Packer.prepare p). set (p2 := Packer.packLoop p1 Box.new).
  cbn [Packer.collectNotPlaced Packer.notPlacedBoxes Packer.freeBoxes].
  destruct (packLoop_frame p1 Box.new) as (_ & _ & _ & Hnot & _ & _).
  fold p2 in Hnot. rewrite Hnot.
  change (Packer.notPlacedBoxes p1) with (@nil Box.t). cbn [app].
  destruct (packLoop_freeCovers p1 Box.new (prepare_wellPacked p)
                                (prepare_freeCovers p)) as [Hwp Hcov].
  fold p2 in Hwp, Hcov.
  intros b f Hb Hf. unfold Packer.remaining in Hb. apply filter_In in Hb.
  destruct Hb as [Hb Hfb]. apply negb_true_iff in Hfb.
  pose proof (packLoop_exit p1 Box.new) as Hexit. cbv zeta in Hexit.
  fold p2 in Hexit. destruct Hexit as [Hlen | (tb1 & tb2 & sc & Hnone)].
  - exfalso.
    assert (Hacc : accounted (Packer.boxes p1) p1).
    { exists []. split; [constructor|]. cbn [app].
      rewrite remaining_all; [reflexivity|].
      cbn. eapply Permutation_Forall; [symmetry; apply sortBoxes_perm|].
      apply Forall_forall. intros b0 Hb0. apply filter_In in Hb0.
      rewrite Forall_forall in Hflags. now apply Hflags. }
    apply (packLoop_accounted _ _ Box.new) in Hacc. fold p2 in Hacc.
    destruct Hacc as (sources & HF & HP).
    apply Forall2_length in HF. apply Permutation_length in HP.
    rewrite length_app in HP.
    pose proof (packLoop_boxes_length p1 Box.new) as Hbl. fold p2 in Hbl.
    assert (Hrem : Packer.remaining (Packer.boxes p2) = []).
    { apply length_zero_iff_nil. lia. }
    assert (Hin : In b (Packer.remaining (Packer.boxes p2))).
    { unfold Packer.remaining. apply filter_In. rewrite Hfb. auto. }
    rewrite Hrem in Hin. contradiction.
  - destruct (findBest_none p2 _ _ _ _ _ _ Hnone b Hb Hfb) as (tb0 & Hmark).
    pose proof (wp_boxes p2 Hwp) as Hpos. rewrite Forall_forall in Hpos.
    destruct (Hpos b Hb) as [Hbw Hbh].
    pose proof (wp_free p2 Hwp) as Hfree. rewrite Forall_forall in Hfree.
    destruct (Hfree f Hf) as ((Hl0 & _) & _).
    destruct (accommodates f b) eqn:Hacc; [exfalso | reflexivity].
    unfold accommodates in Hacc. apply orb_true_iff in Hacc.
    destruct Hacc as [Hfit | Hfit]; apply andb_true_iff in Hfit;
      destruct Hfit as [Hfit1 Hfit2].
    + destruct (fit_has_positive_score p2 (Box.width b) (Box.height b)
                  Hwp Hcov Hbw Hbh (Z.to_nat (Box.left f)) f Hf)
        as (g & Hg & Hgw & Hgh & Hscore); try lia.
      pose proof (proj1 (findBoxPosition_mark p2 b tb0 g Hg) Hgw Hgh). lia.
    + destruct (fit_has_positive_score p2 (Box.height b) (Box.width b)
                  Hwp Hcov Hbh Hbw (Z.to_nat (Box.left f)) f Hf)
        as (g & Hg & Hgw & Hgh & Hscore); try lia.
      pose proof (proj2 (findBoxPosition_mark p2 b tb0 g Hg) Hgw Hgh). lia.
Qed.

(** ** Two [pack] calls in a row *)

(** C5 at the failing input: with a 100x100 container and the boxes
    100x60, 50x50 and 10x10, the first [pack] places boxes 1 and 3 and leaves
    box 2; the second [pack] places box 3 once more, at another position,
    and lists boxes 2, 1 and 2 as not placed. *)
Theorem pack_twice_places_again :
  let p0 := addBoxes (Packer.new 100 100)
                     [(100, 60, 1); (50, 50, 2); (10, 10, 3)] in
  let p1 := snd (Packer.pack p0) in
  let p2 := snd (Packer.pack p1) in
  map bounds (fst (Packer.pack p0))
  = [(0, 0, 60, 100, 1); (60, 0, 70, 10, 3)] /\
  map bounds (fst (Packer.pack p1))
  = [(0, 0, 60, 100, 1); (60, 0, 70, 10, 3); (60, 10, 70, 20, 3)] /\
  map Box.id (Packer.notPlacedBoxes p1) = [2] /\
  map Box.id (Packer.notPlacedBoxes p2) = [2; 1; 2].
Proof. vm_compute. repeat split; reflexivity. Qed.

(** C7 at the failing input: with a 10x10 container and one 1x1 box, the
    second [pack] in a row lists the box, which the first one placed, as not
    placed, although the free box (1,0)-(10,10) is large enough for it. *)
Theorem pack_twice_unplaced_fits :
  let p1 := snd (Packer.pack (Packer.addBox (Packer.new 10 10) 1 1 1)) in
  let p2 := snd (Packer.pack p1) in
  map bounds (Packer.packedBoxes p2) = [(0, 0, 1, 1, 1)] /\
  Packer.notPlacedBoxes p1 = [] /\
  Packer.notPlacedBoxes p2 = [Box.createFromSize 1 1 1] /\
  In (Box.createFromCoord 1 0 10 10) (Packer.freeBoxes p2) /\
  accommodates (Box.createFromCoord 1 0 10 10) (Box.createFromSize 1 1 1)
  = true.
Proof. vm_compute. repeat split; try reflexivity. right; left. reflexivity. Qed.

(** ** The free space after a [pack] that prepares *)



Lemma pack_unprepared_invariants (p : Packer.t) :
  Packer.isPrepared p = false ->
  wellPacked (snd (Packer.pack p)) /\ freeCovers (snd (Packer.pack p)).
Proof.
  intros Hprep. unfold Packer.pack. rewrite Hprep. cbn [snd].
  destruct (packLoop_freeCovers (Packer.prepare p) Box.new
              (prepare_wellPacked p) (prepare_freeCovers p)) as [Hwp Hcov].
  split.
  - destruct Hwp as [H1 H2 H3 H4 H5]. constructor; cbn; try assumption.
    apply Forall_forall. intros b Hb. apply in_map_iff in Hb.
    destruct Hb as (b0 & <- & Hb0). rewrite Forall_forall in H5.
    apply (H5 b0 Hb0).
  - exact Hcov.
Qed.

Lemma pack_container (p : Packer.t) :
  Packer.containerWidth (snd (Packer.pack p)) = Packer.containerWidth p /\
  Packer.containerHeight (snd (Packer.pack p)) = Packer.containerHeight p.
Proof.
  unfold Packer.pack. cbn [snd Packer.collectNotPlaced Packer.containerWidth
                           Packer.containerHeight].
  destruct (packLoop_frame (if Packer.isPrepared p then p else Packer.prepare p)
                           Box.new) as (Hw & Hh & _).
  rewrite Hw, Hh. destruct (Packer.isPrepared p); split; reflexivity.
Qed.

(** X2: after a [pack] that prepares, every free box lies in the
    container, has bounds that agree with its size, and overlaps no placed
    box: what the engine calls free is free. *)
Theorem free_boxes_are_free (p : Packer.t) :
  Packer.isPrepared p = false ->
  let q := snd (Packer.pack p) in
  forall f, In f (Packer.freeBoxes q) ->
    0 <= Box.left f /\ 0 <= Box.top f /\
    Box.right f <= Packer.containerWidth p /\
    Box.bottom f <= Packer.containerHeight p /\
    Box.width f = Box.right f - Box.left f /\
    Box.height f = Box.bottom f - Box.top f /\
    forall b, In b (Packer.packedBoxes q) -> Box.isSeparated f b = false.
Proof.
  intros Hprep q f Hf.
  destruct (pack_unprepared_invariants p Hprep) as [Hwp _]. fold q in Hwp.
  destruct (pack_container p) as [Hcw Hch]. fold q in Hcw, Hch.
  pose proof (wp_free q Hwp) as Hfree. rewrite Forall_forall in Hfree.
  destruct (Hfree f Hf) as ((H1 & H2 & H3 & H4) & (H5 & H6) & _).
  rewrite Hcw in H3. rewrite Hch in H4. repeat split; try assumption.
  intros b Hb. apply isSeparated_false_iff. now apply (wp_free_packed q Hwp).
Qed.

Lemma free_boxes_are_free_witness :
  let p := addBoxes (Packer.new 100 100) [(60, 60, 1); (60, 60, 2)] in
  let q := snd (Packer.pack p) in
  map bounds (Packer.freeBoxes q)
  = [(0, 60, 100, 100, 0); (60, 0, 100, 100, 0)] /\
  forall f, In f (Packer.freeBoxes q) ->
    0 <= Box.left f /\ 0 <= Box.top f /\
    Box.right f <= 100 /\ Box.bottom f <= 100 /\
    Box.width f = Box.right f - Box.left f /\
    Box.height f = Box.bottom f - Box.top f /\
    forall b, In b (Packer.packedBoxes q) -> Box.isSeparated f b = false.
Proof.
  split; [reflexivity|].
  apply (free_boxes_are_free
           (addBoxes (Packer.new 100 100) [(60, 60, 1); (60, 60, 2)])).
  reflexivity.
Defined.

(** X3: after a [pack] that prepares, every rectangle of positive width
    and height that lies in the container and overlaps no placed box lies
    in one free box: the free boxes miss no free place. *)
Theorem free_boxes_cover_free_space (p : Packer.t) (l tp r bt : Z) :
  Packer.isPrepared p = false ->
  l < r -> tp < bt ->
  0 <= l -> 0 <= tp ->
  r <= Packer.containerWidth p -> bt <= Packer.containerHeight p ->
  let q := snd (Packer.pack p) in
  (forall b, In b (Packer.packedBoxes q) ->
             Box.isSeparated (Box.createFromCoord l tp r bt) b = false) ->
  exists f, In f (Packer.freeBoxes q) /\
            Box.left f <= l /\ Box.top f <= tp /\
            r <= Box.right f /\ bt <= Box.bottom f.
Proof.
  intros Hprep Hlr Htb Hl Ht Hr Hb q Hno.
  destruct (pack_unprepared_invariants p Hprep) as [_ Hcov]. fold q in Hcov.
  destruct (pack_container p) as [Hcw Hch]. fold q in Hcw, Hch.
  destruct (Hcov (Box.createFromCoord l tp r bt)) as (f & Hf & Hin).
  - exact Hlr.
  - exact Htb.
  - unfold insideContainer. rewrite Hcw, Hch. cbn. lia.
  - intros b Hbin. apply isSeparated_false_iff. now apply Hno.
  - exists f. split; [assumption|]. exact Hin.
Qed.

Lemma free_boxes_cover_free_space_witness :
  let p := addBoxes (Packer.new 100 100) [(60, 60, 1); (60, 60, 2)] in
  let q := snd (Packer.pack p) in
  exists f, In f (Packer.freeBoxes q) /\
            Box.left f <= 70 /\ Box.top f <= 10 /\
            90 <= Box.right f /\ 95 <= Box.bottom f.
Proof.
  apply (free_boxes_cover_free_space
           (addBoxes (Packer.new 100 100) [(60, 60, 1); (60, 60, 2)])
           70 10 90 95); try reflexivity; try (cbn; lia).
  intros b [<- | []]. reflexivity.
Defined.

(** ** The first placement *)

Lemma packLoop_startsAtOrigin (c : Box.t) (p : Packer.t) (testBox : Box.t) :
  Box.left c = 0 -> Box.top c = 0 ->
  startsAtOrigin c p -> startsAtOrigin c (Packer.packLoop p testBox).
Proof.
  intros Hl Ht. apply packLoop_invariant. clear p testBox.
  intros p tb tb' sc k bb Hst Hbest. right. cbn.
  destruct Hst as [(Hp & Hf) | (b & rest & Hp & Hb)]; rewrite Hp.
  - apply findBest_chosen in Hbest.
    destruct Hbest as (b & _ & _ & _ & _ & f & Hfin & Hpl).
    rewrite Hf in Hfin. destruct Hfin as [<- | []].
    exists bb, []. unfold placedAtCorner in Hpl. cbn. repeat split; lia.
  - exists b, (rest ++ [bb]). cbn. auto.
Qed.

Lemma pack_unprepared_startsAtOrigin (p : Packer.t) :
  Packer.isPrepared p = false ->
  startsAtOrigin (containerBox p) (snd (Packer.pack p)).
Proof.
  intros Hprep. unfold Packer.pack. rewrite Hprep. cbn [snd].
  pose proof (packLoop_startsAtOrigin (containerBox p) (Packer.prepare p)
                Box.new eq_refl eq_refl) as H.
  destruct H as [(Hp & Hf) | (b & rest & Hp & Hb)].
  - left. split; reflexivity.
  - left. split; assumption.
  - right. exists b, rest. split; assumption.
Qed.

(** X4: the first box that a [pack] that prepares places has its top left
    corner at the origin of the container. *)
Theorem first_placed_box_at_origin (p : Packer.t) (b : Box.t)
        (rest : list Box.t) :
  Packer.isPrepared p = false ->
  fst (Packer.pack p) = b :: rest ->
  Box.left b = 0 /\ Box.top b = 0.
Proof.
  intros Hprep Hres.
  destruct (pack_unprepared_startsAtOrigin p Hprep)
    as [(Hp & _) | (b0 & rest0 & Hp & Hb)];
    change (fst (Packer.pack p)) with (Packer.packedBoxes (snd (Packer.pack p)))
      in Hres; rewrite Hp in Hres; [discriminate|].
  inversion Hres; subst. exact Hb.
Qed.

Lemma first_placed_box_at_origin_witness :
  let p := addBoxes (Packer.new 100 100) [(10, 10, 1); (60, 60, 2)] in
  bounds (hd Box.new (fst (Packer.pack p))) = (0, 0, 60, 60, 2) /\
  Box.left (hd Box.new (fst (Packer.pack p))) = 0 /\
  Box.top (hd Box.new (fst (Packer.pack p))) = 0.
Proof.
  split; [reflexivity|].
  apply (first_placed_box_at_origin
           (addBoxes (Packer.new 100 100) [(10, 10, 1); (60, 60, 2)])
           _ (tl (fst (Packer.pack
                         (addBoxes (Packer.new 100 100)
                                   [(10, 10, 1); (60, 60, 2)]))))).
  - reflexivity.
  - reflexivity.
Defined.

(** X5: when a [pack] that prepares places nothing, the container is left
    as the one free box and the read of [fullness] that follows returns
    NaN. *)
Theorem nothing_placed_fullness_NaN (p : Packer.t) :
  Packer.isPrepared p = false ->
  fst (Packer.pack p) = [] ->
  let q := snd (Packer.pack p) in
  Packer.freeBoxes q = [containerBox p] /\
  fst (Packer.fullness q) = NaN.
Proof.
  intros Hprep Hres q.
  change (fst (Packer.pack p)) with (Packer.packedBoxes q) in Hres.
  destruct (pack_unprepared_startsAtOrigin p Hprep)
    as [(Hp & Hf) | (b0 & rest0 & Hp & Hb)]; fold q in Hp;
    [fold q in Hf | congruence].
  split; [assumption|].
  destruct (pack_container p) as [Hcw Hch]. fold q in Hcw, Hch.
  assert (Hcache : Packer._fullness q = Fin (-1 # 1)).
  { unfold q, Packer.pack. rewrite Hprep. cbn [snd].
    cbn [Packer.collectNotPlaced Packer._fullness].
    destruct (packLoop_frame (Packer.prepare p) Box.new)
      as (_ & _ & _ & _ & _ & Hfl).
    rewrite Hfl. reflexivity. }
  unfold Packer.fullness. rewrite Hcache. cbn [js_is_minus_one Qeq_bool].
  change (Qeq_bool (-1 # 1) (-1 # 1)) with true. cbn iota.
  unfold Packer.calculateFullness. rewrite Hf, Hres.
  cbn [map length Nat.sub Packer.touchOuter fold_left fst Packer._fullness].
  unfold Packer.markCorner, containerBox. cbn [Box.right Box.bottom Box.createFromCoord].
  rewrite Hcw, Hch, !Z.eqb_refl. cbn. reflexivity.
Qed.

Lemma nothing_placed_fullness_NaN_witness :
  let p := addBoxes (Packer.new 10 10) [(20, 20, 1); (0, 5, 2)] in
  let q := snd (Packer.pack p) in
  map Box.id (Packer.badBoxes q) = [1; 2] /\
  Packer.freeBoxes q = [containerBox p] /\
  fst (Packer.fullness q) = NaN.
Proof.
  split; [reflexivity|].
  apply (nothing_placed_fullness_NaN
           (addBoxes (Packer.new 10 10) [(20, 20, 1); (0, 5, 2)]));
    reflexivity.
Defined.

(** ** What [pack] writes *)

Lemma markRemoved_sameButFlags (bs : list Box.t) :
  forall k, sameButFlags bs (Packer.markRemoved k bs).
Proof.
  unfold sameButFlags.
  induction bs as [|b bs IH]; intros [|k]; cbn; try reflexivity.
  now rewrite IH.
Qed.

Lemma packLoop_appends (p : Packer.t) (testBox : Box.t) :
  let q := Packer.packLoop p testBox in
  (exists l, Packer.packedBoxes q = Packer.packedBoxes p ++ l) /\
  sameButFlags (Packer.boxes p) (Packer.boxes q).
Proof.
  cbv zeta.
  apply (packLoop_invariant
           (fun q =>
              (exists l, Packer.packedBoxes q = Packer.packedBoxes p ++ l) /\
              sameButFlags (Packer.boxes p) (Packer.boxes q))).
  - intros q tb tb' sc k bb ((l & Hl) & Hb) _. cbn. split.
    + exists (l ++ [bb]). rewrite Hl, app_assoc. reflexivity.
    + unfold sameButFlags in *. rewrite <- Hb.
      apply markRemoved_sameButFlags.
  - split; [exists []; now rewrite app_nil_r | reflexivity].
Qed.

(** X6: on a prepared engine [pack] only appends to the placed boxes and
    to the boxes that are not placed; it leaves the pending boxes as they
    are (their removal flags end cleared), and does not touch the rejected
    boxes, the container dimensions, the prepared flag or the cached
    fullness: the cache is not reset. *)
Theorem pack_prepared_frame (p : Packer.t) :
  Packer.isPrepared p = true ->
  let q := snd (Packer.pack p) in
  (exists l, Packer.packedBoxes q = Packer.packedBoxes p ++ l) /\
  (exists l, Packer.notPlacedBoxes q = Packer.notPlacedBoxes p ++ l) /\
  Packer.boxes q = map (fun b => Box.setNeedRemove b false) (Packer.boxes p) /\
  Packer.badBoxes q = Packer.badBoxes p /\
  Packer.containerWidth q = Packer.containerWidth p /\
  Packer.containerHeight q = Packer.containerHeight p /\
  Packer.isPrepared q = true /\
  Packer._fullness q = Packer._fullness p.
Proof.
  intros Hprep. unfold Packer.pack. rewrite Hprep. cbn [snd].
  destruct (packLoop_frame p Box.new) as (Hw & Hh & Hbad & Hnot & Hpr & Hfl).
  destruct (packLoop_appends p Box.new) as [Happ Hsame].
  cbn [Packer.collectNotPlaced Packer.packedBoxes Packer.notPlacedBoxes
       Packer.boxes Packer.badBoxes Packer.containerWidth
       Packer.containerHeight Packer.isPrepared Packer._fullness].
  rewrite Hw, Hh, Hbad, Hnot, Hpr, Hfl.
  repeat split; try assumption.
  eexists. reflexivity.
Qed.

Lemma pack_prepared_frame_witness :
  Packer.isPrepared engineWithCachedFullness = true /\
  js_is_minus_one
    (Packer._fullness (snd (Packer.pack engineWithCachedFullness))) = false /\
  Packer._fullness (snd (Packer.pack engineWithCachedFullness))
  = Packer._fullness engineWithCachedFullness.
Proof.
  split; [reflexivity|]. split; [reflexivity|].
  apply (pack_prepared_frame engineWithCachedFullness). reflexivity.
Defined.

(** X7: when as many boxes are placed as there are pending boxes, [pack]
    on a prepared engine places nothing and appends every pending box that
    is not marked to the boxes that are not placed. *)
Theorem pack_again_when_all_placed (p : Packer.t) :
  Packer.isPrepared p = true ->
  length (Packer.boxes p) = length (Packer.packedBoxes p) ->
  let q := snd (Packer.pack p) in
  Packer.packedBoxes q = Packer.packedBoxes p /\
  Packer.freeBoxes q = Packer.freeBoxes p /\
  Packer.notPlacedBoxes q
  = Packer.notPlacedBoxes p ++ Packer.remaining (Packer.boxes p).
Proof.
  intros Hprep Hlen. unfold Packer.pack. rewrite Hprep. cbn [snd].
  assert (Hloop : Packer.packLoop p Box.new = p).
  { simp packLoop. apply Nat.eqb_eq in Hlen. rewrite Hlen. reflexivity. }
  rewrite Hloop. cbn. repeat split.
Qed.

Lemma pack_again_when_all_placed_witness :
  let p := snd (Packer.pack (addBoxes (Packer.new 100 100)
                                      [(50, 100, 1); (50, 100, 2)])) in
  let q := snd (Packer.pack p) in
  Packer.notPlacedBoxes p = [] /\
  map Box.id (Packer.notPlacedBoxes q) = [1; 2] /\
  Packer.packedBoxes q = Packer.packedBoxes p /\
  Packer.freeBoxes q = Packer.freeBoxes p /\
  Packer.notPlacedBoxes q
  = Packer.notPlacedBoxes p ++ Packer.remaining (Packer.boxes p).
Proof.
  split; [reflexivity|]. split; [reflexivity|].
  apply (pack_again_when_all_placed
           (snd (Packer.pack (addBoxes (Packer.new 100 100)
                                       [(50, 100, 1); (50, 100, 2)]))));
    reflexivity.
Defined.

(** ** Invariants of the reachable engines *)

Lemma packLoop_count (p : Packer.t) (testBox : Box.t) :
  (length (Packer.packedBoxes p) <= length (Packer.boxes p))%nat ->
  (length (Packer.packedBoxes (Packer.packLoop p testBox))
   <= length (Packer.boxes (Packer.packLoop p testBox)))%nat.
Proof.
  funelim (Packer.packLoop p testBox); intros Hle; try assumption.
  match goal with IH : context [Packer.packLoop] |- _ => apply IH end.
  cbn. rewrite markRemoved_length, length_app. cbn.
  apply Nat.eqb_neq in Heq. lia.
Qed.

(** X8: no reachable engine has more placed boxes than pending boxes,
    however often [pack] is called. *)
Theorem reachable_placed_count (p : Packer.t) :
  reachable p ->
  (length (Packer.packedBoxes p) <= length (Packer.boxes p))%nat.
Proof.
  induction 1 as [cw ch | p w h _ IH | p _ IH | p w h i _ IH | p _ IH
                  | p _ IH | p _ IH]; cbn; try lia.
  - rewrite length_app. lia.
  - unfold Packer.pack. cbn [snd Packer.collectNotPlaced Packer.packedBoxes
                                 Packer.boxes].
    rewrite length_map. apply packLoop_count.
    destruct (Packer.isPrepared p); [assumption | cbn; lia].
  - unfold Packer.fullness. cbn [snd].
    destruct (js_is_minus_one (Packer._fullness p)); [cbn|]; exact IH.
Qed.

Lemma reachable_placed_count_witness :
  let p0 := addBoxes (Packer.new 100 100)
                     [(100, 60, 1); (50, 50, 2); (10, 10, 3)] in
  let p3 := snd (Packer.pack (snd (Packer.pack (snd (Packer.pack p0))))) in
  length (Packer.packedBoxes p3) = 3%nat /\
  (length (Packer.packedBoxes p3) <= length (Packer.boxes p3))%nat.
Proof.
  split; [reflexivity|].
  apply (reachable_placed_count
           (snd (Packer.pack (snd (Packer.pack (snd (Packer.pack
              (addBoxes (Packer.new 100 100)
                        [(100, 60, 1); (50, 50, 2); (10, 10, 3)])))))))).
  do 3 apply reach_pack.
  apply (reach_addBox _ 10 10 3), (reach_addBox _ 50 50 2),
        (reach_addBox _ 100 60 1), reach_new.
Defined.

(** ** The marking pass of [calculateFullness] *)

Lemma markedFrom_refl (x : Box.t) : markedFrom x x.
Proof. destruct x; reflexivity. Qed.

Lemma markedFrom_setMark (x : Box.t) (m : Z) : markedFrom x (Box.setMark x m).
Proof. reflexivity. Qed.

Lemma markedFrom_trans (x y z : Box.t) :
  markedFrom x y -> markedFrom y z -> markedFrom x z.
Proof. unfold markedFrom. intros Hxy Hyz. rewrite Hyz, Hxy. reflexivity. Qed.

Lemma touchInner_markedFrom (rest : list Box.t) :
  forall box1 nextMark b1 rest' nm,
    Packer.touchInner box1 rest nextMark = (b1, rest', nm) ->
    markedFrom box1 b1 /\ Forall2 markedFrom rest rest'.
Proof.
  induction rest as [|box2 rest IH]; cbn [Packer.touchInner];
    intros box1 m b1 rest' nm H.
  - inversion H; subst. split; [apply markedFrom_refl | constructor].
  - destruct (Box.isTouched box1 box2).
    + destruct (Z.max (Box.mark box1) (Box.mark box2) =? 0);
        match type of H with
        | context [Packer.touchInner ?b ?r ?n] =>
            destruct (Packer.touchInner b r n) as [[c1 r1] n1] eqn:Hin
        end;
        inversion H; subst; destruct (IH _ _ _ _ _ Hin) as [H1 H2];
        (split; [eapply markedFrom_trans; [apply markedFrom_setMark | exact H1]
                | constructor; [apply markedFrom_setMark | exact H2]]).
    + destruct (Packer.touchInner box1 rest m) as [[c1 r1] n1] eqn:Hin.
      inversion H; subst. destruct (IH _ _ _ _ _ Hin) as [H1 H2].
      split; [exact H1 | constructor; [apply markedFrom_refl | exact H2]].
Qed.

Lemma Forall2_markedFrom_trans (l1 l2 l3 : list Box.t) :
  Forall2 markedFrom l1 l2 -> Forall2 markedFrom l2 l3 ->
  Forall2 markedFrom l1 l3.
Proof.
  intros H12. revert l3. induction H12 as [|x y l1 l2 Hxy _ IH]; intros l3 H23;
    inversion H23; subst; constructor; [|now apply IH].
  eapply markedFrom_trans; eassumption.
Qed.

Lemma Forall2_markedFrom_refl (l : list Box.t) : Forall2 markedFrom l l.
Proof. induction l; constructor; [apply markedFrom_refl | assumption]. Qed.

(** The marking pass writes marks only. *)
Lemma touchOuter_markedFrom (n : nat) :
  forall l nextMark, Forall2 markedFrom l (Packer.touchOuter n l nextMark).
Proof.
  induction n as [|n IH]; intros [|box1 rest] m; cbn [Packer.touchOuter];
    try apply Forall2_markedFrom_refl.
  destruct (Packer.touchInner box1 rest m) as [[b1 rest'] nm] eqn:Hin.
  destruct (touchInner_markedFrom _ _ _ _ _ _ Hin) as [H1 H2].
  constructor; [exact H1|].
  eapply Forall2_markedFrom_trans; [exact H2 | apply IH].
Qed.

Lemma markCorner_markedFrom (p : Packer.t) (l : list Box.t) :
  Forall2 markedFrom l (map (Packer.markCorner p) l).
Proof.
  induction l as [|x l IH]; cbn; constructor; [|assumption].
  unfold Packer.markCorner.
  destruct ((Box.right x =? Packer.containerWidth p) &&
            (Box.bottom x =? Packer.containerHeight p));
    apply markedFrom_setMark.
Qed.

(** The free boxes after [calculateFullness] are the free boxes of before,
    but for their marks. *)
Lemma calculateFullness_markedFrom (p : Packer.t) :
  Forall2 markedFrom (Packer.freeBoxes p)
          (Packer.freeBoxes (Packer.calculateFullness p)).
Proof.
  cbn. eapply Forall2_markedFrom_trans;
    [apply markCorner_markedFrom | apply touchOuter_markedFrom].
Qed.

Lemma markedFrom_Forall (P : Box.t -> Prop) (l l' : list Box.t) :
  (forall x m, P x -> P (Box.setMark x m)) ->
  Forall2 markedFrom l l' -> Forall P l -> Forall P l'.
Proof.
  intros HP. induction 1 as [|x y l l' Hxy _ IH]; intros HF;
    inversion HF; subst; constructor; [|now apply IH].
  rewrite Hxy. now apply HP.
Qed.

Lemma markedFrom_map_markCorner (p : Packer.t) (l l' : list Box.t) :
  Forall2 markedFrom l l' ->
  map (Packer.markCorner p) l' = map (Packer.markCorner p) l.
Proof.
  induction 1 as [|x y l l' Hxy _ IH]; cbn; [reflexivity|].
  rewrite IH. f_equal. rewrite Hxy. unfold Packer.markCorner. cbn.
  destruct ((Box.right x =? Packer.containerWidth p) &&
            (Box.bottom x =? Packer.containerHeight p)); reflexivity.
Qed.

Lemma calculateFullness_idempotent (p : Packer.t) :
  Packer.calculateFullness (Packer.calculateFullness p)
  = Packer.calculateFullness p.
Proof.
  pose proof (markedFrom_map_markCorner p _ _ (calculateFullness_markedFrom p))
    as Hmap.
  unfold Packer.calculateFullness at 1.
  change (Packer.containerWidth (Packer.calculateFullness p))
    with (Packer.containerWidth p).
  change (Packer.containerHeight (Packer.calculateFullness p))
    with (Packer.containerHeight p).
  change (Packer.boxes (Packer.calculateFullness p)) with (Packer.boxes p).
  change (Packer.packedBoxes (Packer.calculateFullness p))
    with (Packer.packedBoxes p).
  change (Packer.badBoxes (Packer.calculateFullness p))
    with (Packer.badBoxes p).
  change (Packer.notPlacedBoxes (Packer.calculateFullness p))
    with (Packer.notPlacedBoxes p).
  change (Packer.isPrepared (Packer.calculateFullness p))
    with (Packer.isPrepared p).
  change (map (Packer.markCorner (Packer.calculateFullness p)))
    with (map (Packer.markCorner p)).
  rewrite Hmap. reflexivity.
Qed.

(** X9: a read of [fullness] leaves everything but the cache and the marks
    of the free boxes as it is, and a second read in a row returns the same
    value and leaves the engine as the first read left it. *)
Theorem fullness_read_is_stable (p : Packer.t) :
  let q := snd (Packer.fullness p) in
  Packer.fullness q = (fst (Packer.fullness p), q) /\
  Packer.boxes q = Packer.boxes p /\
  Packer.packedBoxes q = Packer.packedBoxes p /\
  Packer.badBoxes q = Packer.badBoxes p /\
  Packer.notPlacedBoxes q = Packer.notPlacedBoxes p /\
  Packer.isPrepared q = Packer.isPrepared p /\
  Packer.containerWidth q = Packer.containerWidth p /\
  Packer.containerHeight q = Packer.containerHeight p /\
  Forall2 markedFrom (Packer.freeBoxes p) (Packer.freeBoxes q).
Proof.
  unfold Packer.fullness. cbn [fst snd].
  destruct (js_is_minus_one (Packer._fullness p)) eqn:Hc.
  - split.
    + destruct (js_is_minus_one (Packer._fullness (Packer.calculateFullness p)));
        [rewrite calculateFullness_idempotent|]; reflexivity.
    + repeat split. apply calculateFullness_markedFrom.
  - rewrite Hc. repeat split. apply Forall2_markedFrom_refl.
Qed.

(** ** Fullness when something is placed *)








(** ** The [Box] invariant in the reachable engines *)

Lemma tidy_setMark (x : Box.t) (m : Z) : tidy x -> tidy (Box.setMark x m).
Proof. intros H. exact H. Qed.

Lemma packLoop_tidy (p : Packer.t) (testBox : Box.t) :
  Forall coherent (Packer.boxes p) ->
  Forall tidy (Packer.packedBoxes p) ->
  Forall tidy (Packer.freeBoxes p) ->
  let q := Packer.packLoop p testBox in
  Forall coherent (Packer.boxes q) /\
  Forall tidy (Packer.packedBoxes q) /\
  Forall tidy (Packer.freeBoxes q).
Proof.
  intros Hb Hp Hf. cbv zeta.
  apply (packLoop_invariant
           (fun q => Forall coherent (Packer.boxes q) /\
                     Forall tidy (Packer.packedBoxes q) /\
                     Forall tidy (Packer.freeBoxes q)));
    [|repeat split; assumption].
  clear. intros p tb tb' sc k bb (Hb & Hp & Hf) Hbest.
  apply findBest_chosen in Hbest.
  destruct Hbest as (b & _ & _ & _ & Hflag & f & _ & Hpl).
  cbn [Packer.setBoxes Packer.boxes Packer.packedBoxes Packer.freeBoxes].
  split; [|split].
  - cbn. apply markRemoved_Forall; [|assumption]. intros x Hx. exact Hx.
  - cbn. apply Forall_app. split; [assumption|]. constructor; [|constructor].
    split; [|assumption]. unfold placedAtCorner in Hpl. unfold coherent. lia.
  - apply Forall_forall. intros g Hg. apply addPackedBox_freeBoxes in Hg.
    rewrite Forall_forall in Hf.
    destruct Hg as (Hfg & [(Hg & _) | (f0 & _ & Hs & Hg)]); [now apply Hf|].
    destruct (splitFreeBox_strip f0 bb g Hg Hs) as (_ & Hw & Hh & _).
    split; [split|]; assumption.
Qed.

(** X11: in every reachable engine, every box of the five collections has
    [right - left = width] and [bottom - top = height], and none carries
    the removal flag. *)
Theorem reachable_boxes_tidy (p : Packer.t) :
  reachable p ->
  Forall tidy (Packer.boxes p) /\
  Forall tidy (Packer.packedBoxes p) /\
  Forall tidy (Packer.freeBoxes p) /\
  Forall tidy (Packer.badBoxes p) /\
  Forall tidy (Packer.notPlacedBoxes p).
Proof.
  assert (Hprepare : forall p,
             Forall tidy (Packer.boxes p) ->
             Forall tidy (Packer.boxes (Packer.prepare p)) /\
             Forall tidy (Packer.packedBoxes (Packer.prepare p)) /\
             Forall tidy (Packer.freeBoxes (Packer.prepare p)) /\
             Forall tidy (Packer.badBoxes (Packer.prepare p)) /\
             Forall tidy (Packer.notPlacedBoxes (Packer.prepare p))).
  { intros p0 Hb. cbn. rewrite Forall_forall in Hb. repeat split.
    - eapply Permutation_Forall; [symmetry; apply sortBoxes_perm|].
      apply Forall_forall. intros b Hin. apply filter_In in Hin.
      now apply Hb.
    - constructor.
    - repeat constructor; cbn; lia.
    - apply Forall_forall. intros b Hin. apply filter_In in Hin.
      now apply Hb.
    - constructor. }
  induction 1 as [cw ch | p w h _ IH | p _ IH | p w h i _ IH | p _ IH
                  | p _ IH | p _ IH].
  - cbn. repeat split; constructor.
  - exact IH.
  - cbn. repeat split; constructor.
  - destruct IH as (Hb & Hrest). split; [|exact Hrest].
    cbn. apply Forall_app. split; [assumption|].
    constructor; [|constructor]. split; [|reflexivity].
    unfold coherent. cbn. lia.
  - apply Hprepare, IH.
  - assert (Hstart : let p1 := if Packer.isPrepared p then p
                               else Packer.prepare p in
                     Forall tidy (Packer.boxes p1) /\
                     Forall tidy (Packer.packedBoxes p1) /\
                     Forall tidy (Packer.freeBoxes p1) /\
                     Forall tidy (Packer.badBoxes p1) /\
                     Forall tidy (Packer.notPlacedBoxes p1)).
    { destruct (Packer.isPrepared p); [exact IH | apply Hprepare, IH]. }
    unfold Packer.pack. cbn [snd]. cbv zeta in Hstart.
    set (p1 := if Packer.isPrepared p then p else Packer.prepare p) in *.
    destruct Hstart as (Hb & Hp & Hf & Hbad & Hnot).
    destruct (packLoop_frame p1 Box.new) as (_ & _ & Ebad & Enot & _ & _).
    destruct (packLoop_tidy p1 Box.new) as (Lb & Lp & Lf); try assumption.
    { eapply Forall_impl; [|exact Hb]. intros b [Hc _]. exact Hc. }
    cbn [Packer.collectNotPlaced Packer.boxes Packer.packedBoxes
         Packer.freeBoxes Packer.badBoxes Packer.notPlacedBoxes].
    rewrite Ebad, Enot. repeat split; try assumption.
    + apply Forall_forall. intros b Hin. apply in_map_iff in Hin.
      destruct Hin as (b0 & <- & Hin0). rewrite Forall_forall in Lb.
      split; [apply (Lb b0 Hin0) | reflexivity].
    + apply Forall_app. split; [assumption|].
      apply Forall_forall. intros b Hin. unfold Packer.remaining in Hin.
      apply filter_In in Hin. destruct Hin as [Hin Hfl].
      rewrite Forall_forall in Lb. split; [now apply Lb|].
      now apply negb_true_iff in Hfl.
  - destruct IH as (Hb & Hp & Hf & Hbad & Hnot).
    unfold Packer.fullness. cbn [snd].
    destruct (js_is_minus_one (Packer._fullness p));
      [|repeat split; assumption].
    repeat split; try assumption.
    eapply markedFrom_Forall;
      [|apply calculateFullness_markedFrom | exact Hf].
    intros x m Hx. exact Hx.
Qed.

Lemma reachable_boxes_tidy_witness :
  let p := snd (Packer.fullness
                  (snd (Packer.pack
                          (snd (Packer.pack
                                  (addBoxes (Packer.new 100 100)
                                            [(100, 60, 1); (50, 50, 2);
                                             (10, 10, 3); (0, 7, 4)])))))) in
  (length (Packer.packedBoxes p) = 3%nat /\
   length (Packer.badBoxes p) = 1%nat) /\
  Forall tidy (Packer.boxes p) /\
  Forall tidy (Packer.packedBoxes p) /\
  Forall tidy (Packer.freeBoxes p) /\
  Forall tidy (Packer.badBoxes p) /\
  Forall tidy (Packer.notPlacedBoxes p).
Proof.
  split; [split; reflexivity|].
  apply reachable_boxes_tidy.
  apply reach_fullness. do 2 apply reach_pack.
  apply (reach_addBox _ 0 7 4), (reach_addBox _ 10 10 3),
        (reach_addBox _ 50 50 2), (reach_addBox _ 100 60 1), reach_new.
Defined.

(** ** Preparation *)

Lemma compareBoxes_before (a b : Box.t) :
  Packer.compareBoxes a b <= 0 <-> before a b.
Proof.
  unfold Packer.compareBoxes, before.
  destruct (Box.width a =? Box.width b) eqn:H; lia.
Qed.

Lemma before_trans (a b c : Box.t) : before a b -> before b c -> before a c.
Proof. unfold before. lia. Qed.

Lemma insertSorted_sorted (x : Box.t) (l : list Box.t) :
  ForallOrdPairs before l -> ForallOrdPairs before (Packer.insertSorted x l).
Proof.
  induction 1 as [|y l Hy Hl IH]; cbn.
  - constructor; constructor.
  - destruct (Packer.compareBoxes x y <=? 0) eqn:Hc.
    + assert (Hxy : before x y) by (apply compareBoxes_before; lia).
      constructor; [|constructor; assumption].
      constructor; [assumption|].
      eapply Forall_impl; [|exact Hy]. intros z Hz.
      eapply before_trans; eassumption.
    + assert (Hyx : before y x).
      { unfold before. unfold Packer.compareBoxes in Hc.
        destruct (Box.width x =? Box.width y) eqn:H; lia. }
      constructor; [|assumption].
      eapply Permutation_Forall; [symmetry; apply insertSorted_perm|].
      constructor; assumption.
Qed.

Lemma sortBoxes_sorted (l : list Box.t) :
  ForallOrdPairs before (Packer.sortBoxes l).
Proof.
  induction l as [|x l IH]; cbn; [constructor|].
  now apply insertSorted_sorted.
Qed.

Lemma sortBoxes_of_sorted (l : list Box.t) :
  ForallOrdPairs before l -> Packer.sortBoxes l = l.
Proof.
  induction 1 as [|x l Hx Hl IH]; [reflexivity|].
  change (Packer.sortBoxes (x :: l))
    with (Packer.insertSorted x (Packer.sortBoxes l)).
  rewrite IH. destruct l as [|y l']; [reflexivity|]. cbn.
  inversion Hx; subst.
  assert (Hc : Packer.compareBoxes x y <= 0) by now apply compareBoxes_before.
  destruct (Packer.compareBoxes x y <=? 0) eqn:E; [reflexivity | lia].
Qed.


(** X13: a second [prepare] in a row keeps the pending boxes and their
    order, and empties the rejected boxes: the boxes that the first one
    rejected are in no collection any more. *)
Theorem prepare_twice_forgets_rejected (p : Packer.t) :
  let q := Packer.prepare (Packer.prepare p) in
  Packer.boxes q = Packer.boxes (Packer.prepare p) /\
  Packer.badBoxes q = [] /\
  Packer.freeBoxes q = Packer.freeBoxes (Packer.prepare p) /\
  Packer.packedBoxes q = [] /\ Packer.notPlacedBoxes q = [].
Proof.
  assert (Hkeep : forall l,
             Forall (fun b => Packer.isBadBox p b = false) l ->
             filter (fun b => negb (Packer.isBadBox p b)) l = l /\
             filter (Packer.isBadBox p) l = []).
  { induction 1 as [|b l Hb _ [IH1 IH2]]; cbn; [split; reflexivity|].
    rewrite Hb. cbn. rewrite IH1, IH2. split; reflexivity. }
  assert (Hgood : Forall (fun b => Packer.isBadBox p b = false)
                         (Packer.boxes (Packer.prepare p))).
  { cbn. eapply Permutation_Forall; [symmetry; apply sortBoxes_perm|].
    apply Forall_forall. intros b Hb. apply filter_In in Hb.
    destruct Hb as [_ Hb]. now apply negb_true_iff in Hb. }
  destruct (Hkeep _ Hgood) as [H1 H2].
  cbv zeta. split; [|split; [|repeat split]].
  - change (Packer.boxes (Packer.prepare (Packer.prepare p)))
      with (Packer.sortBoxes
              (filter (fun b => negb (Packer.isBadBox p b))
                      (Packer.boxes (Packer.prepare p)))).
    rewrite H1. apply sortBoxes_of_sorted. apply (sortBoxes_sorted _).
  - change (Packer.badBoxes (Packer.prepare (Packer.prepare p)))
      with (filter (Packer.isBadBox p) (Packer.boxes (Packer.prepare p))).
    exact H2.
Qed.

(** ** Shared interval length *)

(** X14: for two intervals given with their ends in order,
    [commonIntervalLength] is the length of their intersection, 0 when
    they do not meet or meet in one point; it does not depend on the order
    of the two intervals. *)
Theorem commonIntervalLength_is_overlap (a1 a2 b1 b2 : Z) :
  a1 <= a2 -> b1 <= b2 ->
  Packer.commonIntervalLength a1 a2 b1 b2
  = Z.max 0 (Z.min a2 b2 - Z.max a1 b1) /\
  Packer.commonIntervalLength a1 a2 b1 b2
  = Packer.commonIntervalLength b1 b2 a1 a2.
Proof.
  intros Ha Hb. unfold Packer.commonIntervalLength.
  destruct ((a2 <? b1) || (b2 <? a1)) eqn:H1;
    destruct ((b2 <? a1) || (a2 <? b1)) eqn:H2; lia.
Qed.

Lemma commonIntervalLength_is_overlap_witness :
  Packer.commonIntervalLength 0 10 4 25 = 6 /\
  Packer.commonIntervalLength 0 10 4 25 = Z.max 0 (Z.min 10 25 - Z.max 0 4) /\
  Packer.commonIntervalLength 0 10 4 25 = Packer.commonIntervalLength 4 25 0 10.
Proof.
  split; [reflexivity|].
  apply (commonIntervalLength_is_overlap 0 10 4 25); lia.
Defined.

(** ** Rejected boxes and the next preparation *)

Lemma map_unflag_not_marked (l : list Box.t) :
  Forall (fun b => Box.needRemove b = false) l ->
  map (fun b => Box.setNeedRemove b false) l = l.
Proof.
  induction 1 as [|b l Hb _ IH]; cbn; [reflexivity|].
  rewrite IH. f_equal. destruct b; cbn in *. now subst.
Qed.

(** The pending boxes after a [pack] that prepares: the boxes that passed
    the size test, in the order of [prepare]. *)
Lemma pack_unprepared_boxes (p : Packer.t) :
  Packer.isPrepared p = false ->
  Forall (fun b => Box.needRemove b = false) (Packer.boxes p) ->
  Packer.boxes (snd (Packer.pack p)) = Packer.boxes (Packer.prepare p).
Proof.
  intros Hprep Hflags. unfold Packer.pack. rewrite Hprep.
  cbn [snd Packer.collectNotPlaced Packer.boxes].
  destruct (packLoop_appends (Packer.prepare p) Box.new) as [_ Hsame].
  unfold sameButFlags in Hsame. rewrite Hsame.
  apply map_unflag_not_marked.
  cbn. eapply Permutation_Forall; [symmetry; apply sortBoxes_perm|].
  apply Forall_forall. intros b Hb. apply filter_In in Hb.
  rewrite Forall_forall in Hflags. now apply Hflags.
Qed.

Lemma addBoxes_not_prepared (l : list (Z * Z * Z)) (p : Packer.t) :
  l <> [] -> Packer.isPrepared (addBoxes p l) = false.
Proof.
  destruct l as [|[[w h] i] l]; [congruence|]. intros _.
  apply (addBoxes_frame l (Packer.addBox p w h i)). reflexivity.
Qed.

(** X15: a box rejected by one [pack] is dropped for good: after more
    [addBox] calls and the next [pack], the rejected boxes are those of the
    new calls only, and the pending boxes hold none of the boxes rejected
    before. *)
Theorem rejected_boxes_are_dropped (p : Packer.t)
        (calls : list (Z * Z * Z)) :
  reachable p ->
  Packer.isPrepared p = false ->
  calls <> [] ->
  let q1 := snd (Packer.pack p) in
  let q2 := snd (Packer.pack (addBoxes q1 calls)) in
  Packer.badBoxes q2 = filter (Packer.isBadBox p) (map boxOfCall calls) /\
  forall b, In b (Packer.badBoxes q1) -> ~ In b (Packer.boxes q1).
Proof.
  intros Hreach Hprep Hcalls q1 q2.
  pose proof (reachable_not_marked p Hreach) as Hflags.
  pose proof (pack_unprepared_boxes p Hprep Hflags) as Hb1. fold q1 in Hb1.
  destruct (pack_container p) as [Hcw Hch]. fold q1 in Hcw, Hch.
  assert (Hgood : Forall (fun b => Packer.isBadBox p b = false)
                         (Packer.boxes q1)).
  { rewrite Hb1. cbn. eapply Permutation_Forall;
      [symmetry; apply sortBoxes_perm|].
    apply Forall_forall. intros b Hb. apply filter_In in Hb.
    destruct Hb as [_ Hb]. now apply negb_true_iff in Hb. }
  destruct (pack_unprepared p Hprep Hflags) as (Hbad1 & _). fold q1 in Hbad1.
  split.
  - set (p' := addBoxes q1 calls).
    destruct (addBoxes_frame calls q1) as (Hw' & Hh' & _). fold p' in Hw', Hh'.
    destruct (pack_unprepared p') as (Hbad2 & _).
    { now apply addBoxes_not_prepared. }
    { unfold p'. rewrite addBoxes_boxes. apply Forall_app. split.
      - apply (reachable_not_marked q1). now apply reach_pack.
      - apply boxOfCall_not_marked. }
    change (Packer.badBoxes q2) with (Packer.badBoxes (snd (Packer.pack p'))).
    rewrite Hbad2.
    assert (Hsame : forall b, Packer.isBadBox p' b = Packer.isBadBox p b).
    { intros b. apply isBadBox_container; congruence. }
    unfold p' at 2. rewrite addBoxes_boxes, filter_app.
    rewrite (filter_ext _ _ Hsame). rewrite (filter_ext _ _ Hsame).
    assert (Hnone : filter (Packer.isBadBox p) (Packer.boxes q1) = []).
    { clear - Hgood. induction Hgood as [|b l Hb _ IH]; cbn; [reflexivity|].
      now rewrite Hb. }
    rewrite Hnone. reflexivity.
  - intros b Hb. rewrite Hbad1 in Hb. apply filter_In in Hb.
    destruct Hb as [Hin Hbad].
    intros Hin1. rewrite Forall_forall in Hgood. rewrite (Hgood b Hin1) in Hbad.
    discriminate.
Qed.

Lemma rejected_boxes_are_dropped_witness :
  let p := addBoxes (Packer.new 10 10) [(20, 20, 1); (5, 5, 2)] in
  let q1 := snd (Packer.pack p) in
  let q2 := snd (Packer.pack (addBoxes q1 [(3, 3, 3)])) in
  map Box.id (Packer.badBoxes q1) = [1] /\
  (length (Packer.packedBoxes q2) + length (Packer.notPlacedBoxes q2)
   + length (Packer.badBoxes q2) = 2)%nat /\
  Packer.badBoxes q2 = filter (Packer.isBadBox p) (map boxOfCall [(3, 3, 3)]).
Proof.
  split; [reflexivity|]. split; [reflexivity|].
  apply (rejected_boxes_are_dropped
           (addBoxes (Packer.new 10 10) [(20, 20, 1); (5, 5, 2)])
           [(3, 3, 3)]).
  - apply (reach_addBox _ 5 5 2), (reach_addBox _ 20 20 1), reach_new.
  - reflexivity.
  - discriminate.
Defined.

(** ** No free box lies in another *)

Lemma pruneInner_exhaustive (box1 : Box.t) (rest : list Box.t) :
  forall b1 rest',
    Packer.pruneInner box1 rest = (b1, rest') ->
    Box.needRemove box1 = false -> Box.needRemove b1 = false ->
    Forall2 (comparedWith box1) rest rest'.
Proof.
  induction rest as [|box2 rest IH]; cbn [Packer.pruneInner];
    intros b1 rest' H Hf1 Hfb.
  - inversion H; subst. constructor.
  - destruct (Box.needRemove box2) eqn:Hf2.
    + destruct (Packer.pruneInner box1 rest) as [c1 r] eqn:Hin.
      inversion H; subst. constructor; [left; auto | eapply IH; eauto].
    + destruct (Box.isContained box1 box2) eqn:Hc1.
      * inversion H; subst. cbn in Hfb. discriminate.
      * destruct (Packer.pruneInner box1 rest) as [c1 r] eqn:Hin.
        destruct (Box.isContained box2 box1) eqn:Hc2; inversion H; subst.
        -- constructor; [right; left; auto | eapply IH; eauto].
        -- constructor; [|eapply IH; eauto].
           right; right. repeat split; auto.
           ++ intros Hi. apply isContained_iff in Hi. congruence.
           ++ intros Hi. apply isContained_iff in Hi. congruence.
Qed.

Lemma Forall2_In_r (R : Box.t -> Box.t -> Prop) (l1 l2 : list Box.t)
      (y : Box.t) :
  Forall2 R l1 l2 -> In y l2 -> exists x, In x l1 /\ R x y.
Proof.
  induction 1 as [|a b l1 l2 Hab _ IH]; [contradiction|].
  intros [<- | Hy].
  - exists a. cbn. auto.
  - destruct (IH Hy) as (x & Hx & Hr). exists x. cbn. auto.
Qed.

Lemma pruneOuter_compares_all (n : nat) :
  forall l,
    (length l <= S n)%nat ->
    ForallOrdPairs
      (fun a b => Box.needRemove a = false -> Box.needRemove b = false ->
                  unrelated a b)
      (Packer.pruneOuter n l).
Proof.
  induction n as [|n IH]; intros l Hlen.
  - destruct l as [|x [|y l]]; cbn in *; try lia; repeat constructor.
  - destruct l as [|box1 rest]; [constructor|]. cbn [Packer.pruneOuter].
    cbn in Hlen.
    destruct (Box.needRemove box1) eqn:Hf1.
    + constructor; [|apply IH; lia].
      apply Forall_forall. intros y _ Hfa. congruence.
    + destruct (Packer.pruneInner box1 rest) as [b1 rest'] eqn:Hin.
      destruct (pruneInner_spec _ _ _ _ Hin) as [HF Hb].
      assert (Hlen' : length rest' = length rest).
      { symmetry. eapply Forall2_length; eassumption. }
      constructor; [|apply IH; lia].
      apply Forall_forall. intros y Hy Hfb Hfy.
      assert (Hb1 : b1 = box1).
      { destruct Hb as [Hb | (Hb & _)]; [assumption|].
        rewrite Hb in Hfb. cbn in Hfb. discriminate. }
      subst b1.
      pose proof (pruneInner_exhaustive _ _ _ _ Hin Hf1 Hfb) as Hex.
      destruct (Forall2_In_r _ _ _ _ (pruneOuter_flaggedFrom n rest') Hy)
        as (y' & Hy' & Hyy).
      assert (Heq : y = y').
      { destruct Hyy as [-> | ->]; [reflexivity|]. cbn in Hfy. discriminate. }
      subst y'.
      destruct (Forall2_In_r _ _ _ _ Hex Hy') as (x & _ & Hc).
      destruct Hc as [(Hfx & ->) | [(_ & ->) | (_ & -> & Hu)]].
      * congruence.
      * cbn in Hfy. discriminate.
      * exact Hu.
Qed.

Lemma ForallOrdPairs_filter (R : Box.t -> Box.t -> Prop) (l : list Box.t) :
  ForallOrdPairs
    (fun a b => Box.needRemove a = false -> Box.needRemove b = false -> R a b)
    l ->
  ForallOrdPairs R (Packer.keepFreeBoxes l).
Proof.
  unfold Packer.keepFreeBoxes.
  induction 1 as [|a l Ha _ IH]; cbn; [constructor|].
  destruct (Box.needRemove a) eqn:Hfa; cbn; [assumption|].
  constructor; [|assumption].
  apply Forall_forall. intros b Hb. apply filter_In in Hb.
  destruct Hb as [Hb Hfb]. apply negb_true_iff in Hfb.
  rewrite Forall_forall in Ha. now apply Ha.
Qed.

Lemma addPackedBox_antichain (p : Packer.t) (box : Box.t) :
  ForallOrdPairs unrelated (Packer.freeBoxes (Packer.addPackedBox p box)).
Proof.
  cbn [Packer.addPackedBox Packer.freeBoxes].
  apply ForallOrdPairs_filter. apply pruneOuter_compares_all. lia.
Qed.

Lemma unrelated_markedFrom (l l' : list Box.t) :
  Forall2 markedFrom l l' ->
  ForallOrdPairs unrelated l -> ForallOrdPairs unrelated l'.
Proof.
  assert (Hcoord : forall x y, markedFrom x y ->
                     forall z, insideOf x z <-> insideOf y z).
  { intros x y Hxy z. rewrite Hxy. reflexivity. }
  assert (Hcoord' : forall x y, markedFrom x y ->
                      forall z, insideOf z x <-> insideOf z y).
  { intros x y Hxy z. rewrite Hxy. reflexivity. }
  induction 1 as [|x y l l' Hxy HF IH]; intros Hp; [constructor|].
  inversion Hp as [|a l0 Ha Hl]; subst. constructor; [|now apply IH].
  clear IH Hp Hl. induction HF as [|u v l l' Huv _ IHF]; [constructor|].
  inversion Ha; subst. constructor; [|now apply IHF].
  unfold unrelated in *.
  rewrite <- (Hcoord x y Hxy v), <- (Hcoord' u v Huv x).
  rewrite <- (Hcoord u v Huv y), <- (Hcoord' x y Hxy u). assumption.
Qed.

Lemma reachable_antichain (p : Packer.t) :
  reachable p -> ForallOrdPairs unrelated (Packer.freeBoxes p).
Proof.
  induction 1 as [cw ch | p w h _ IH | p _ IH | p w h i _ IH | p _ IH
                  | p _ IH | p _ IH]; cbn; try assumption;
    try (repeat constructor; fail).
  - unfold Packer.pack. cbn [snd Packer.collectNotPlaced Packer.freeBoxes].
    apply (packLoop_invariant
             (fun q => ForallOrdPairs unrelated (Packer.freeBoxes q))).
    + intros q tb tb' sc k bb _ _. apply addPackedBox_antichain.
    + destruct (Packer.isPrepared p); [assumption|].
      cbn. repeat constructor.
  - unfold Packer.fullness. cbn [snd].
    destruct (js_is_minus_one (Packer._fullness p)); [|assumption].
    eapply unrelated_markedFrom; [apply calculateFullness_markedFrom|].
    assumption.
Qed.

(** X16: in every reachable engine no free box lies inside another free
    box, bounds included; in particular no free box is listed twice. *)
Theorem free_boxes_pairwise_not_contained (p : Packer.t) :
  reachable p ->
  forall i j f g,
    i <> j ->
    nth_error (Packer.freeBoxes p) i = Some f ->
    nth_error (Packer.freeBoxes p) j = Some g ->
    Box.isContained f g = false.
Proof.
  intros Hreach i j f g Hij Hi Hj.
  pose proof (reachable_antichain p Hreach) as Hanti.
  destruct (Box.isContained f g) eqn:Hc; [exfalso | reflexivity].
  apply isContained_iff in Hc.
  destruct (Nat.lt_ge_cases i j) as [Hlt | Hge].
  - destruct (ForallOrdPairs_nth _ _ Hanti i j f g Hlt Hi Hj) as [H1 _].
    contradiction.
  - assert (Hlt : (j < i)%nat) by lia.
    destruct (ForallOrdPairs_nth _ _ Hanti j i g f Hlt Hj Hi) as [_ H2].
    contradiction.
Qed.

Lemma free_boxes_pairwise_not_contained_witness :
  let p := snd (Packer.pack (addBoxes (Packer.new 100 100)
                                      [(60, 60, 1); (20, 30, 2)])) in
  length (Packer.freeBoxes p) = 3%nat /\
  forall i j f g,
    i <> j ->
    nth_error (Packer.freeBoxes p) i = Some f ->
    nth_error (Packer.freeBoxes p) j = Some g ->
    Box.isContained f g = false.
Proof.
  split; [reflexivity|].
  apply free_boxes_pairwise_not_contained.
  apply reach_pack.
  apply (reach_addBox _ 20 30 2), (reach_addBox _ 60 60 1), reach_new.
Defined.

(** ** The greedy choice *)

Lemma fold_tryFreeBox_snd (p : Packer.t) (box : Box.t) (l : list Box.t) :
  forall tb tb' sc,
    snd (fold_left (Packer.tryFreeBox p box) l (tb, sc))
    = snd (fold_left (Packer.tryFreeBox p box) l (tb', sc)).
Proof.
  induction l as [|f l IH]; intros tb tb' sc; cbn [fold_left]; [reflexivity|].
  assert (Hstep : snd (Packer.tryFreeBox p box (tb, sc) f)
                  = snd (Packer.tryFreeBox p box (tb', sc) f)).
  { unfold Packer.tryFreeBox.
    repeat match goal with
           | |- context [if ?c then _ else _] => destruct c
           end; reflexivity. }
  destruct (Packer.tryFreeBox p box (tb, sc) f) as [t1 s1].
  destruct (Packer.tryFreeBox p box (tb', sc) f) as [t2 s2].
  cbn in Hstep. subst s2. apply IH.
Qed.

(** The mark does not depend on what the test box held. *)
Lemma findBoxPosition_mark_any (p : Packer.t) (box testBox : Box.t) :
  Box.mark (Packer.findBoxPosition p box testBox) = bestScoreOf p box.
Proof.
  unfold bestScoreOf, Packer.findBoxPosition.
  pose proof (fold_tryFreeBox_snd p box (Packer.freeBoxes p)
                (Box.setMark testBox 0) (Box.setMark Box.new 0) (-1)) as H.
  destruct (fold_left (Packer.tryFreeBox p box) (Packer.freeBoxes p)
                      (Box.setMark testBox 0, -1)) as [t1 s1].
  destruct (fold_left (Packer.tryFreeBox p box) (Packer.freeBoxes p)
                      (Box.setMark Box.new 0, -1)) as [t2 s2].
  cbn in *. assumption.
Qed.

Lemma findBest_greedy (p : Packer.t) (bs : list Box.t) :
  forall i testBox bestScore best testBox' bestScore' best',
    Packer.findBest p bs i testBox bestScore best
    = (testBox', bestScore', best') ->
    (forall b, In b bs -> Box.needRemove b = false ->
               bestScoreOf p b <= bestScore') /\
    ((best' = best /\ bestScore' = bestScore) \/
     (exists k b bestBox,
         best' = Some (k, bestBox) /\ (i <= k)%nat /\
         nth_error bs (k - i) = Some b /\ Box.needRemove b = false /\
         bestScoreOf p b = bestScore' /\ bestScore < bestScore' /\
         forall j b', (j < k - i)%nat -> nth_error bs j = Some b' ->
                      Box.needRemove b' = false ->
                      bestScoreOf p b' < bestScore')).
Proof.
  induction bs as [|b bs IH]; cbn [Packer.findBest];
    intros i tb sc best tb' sc' best' H.
  - inversion H; subst. split; [intros b []|]. now left.
  - destruct (Box.needRemove b) eqn:Hfb.
    + destruct (IH _ _ _ _ _ _ _ H) as [Hall Hcase]. split.
      * intros b0 [<- | Hb0] Hf0; [congruence | now apply Hall].
      * destruct Hcase as [Hsame | (k & b1 & bb & E & Hle & Hn & Hf1 & Hm & Hlt & Hmin)];
          [now left|].
        right. exists k, b1, bb. split; [assumption|]. split; [lia|].
        replace (k - i)%nat with (S (k - S i)) by lia.
        split; [exact Hn|]. split; [assumption|]. split; [assumption|].
        split; [assumption|].
        intros [|j] b' Hj Hnj Hfj; cbn in Hnj.
        -- inversion Hnj; subst. congruence.
        -- apply (Hmin j b'); [lia | assumption | assumption].
    + rewrite findBoxPosition_mark_any in H.
      destruct (bestScoreOf p b >? sc) eqn:Hgt.
      * destruct (IH _ _ _ _ _ _ _ H) as [Hall Hcase].
        assert (Hb : bestScoreOf p b <= sc').
        { destruct Hcase as [(_ & ->) | (k & b1 & bb & _ & _ & _ & _ & _ & Hlt & _)];
            lia. }
        split.
        -- intros b0 [<- | Hb0] Hf0; [assumption | now apply Hall].
        -- right.
           destruct Hcase as [(E & Hs) | (k & b1 & bb & E & Hle & Hn & Hf1 & Hm & Hlt & Hmin)].
           ++ exists i, b, (Box.clone (Packer.findBoxPosition p b tb)).
              rewrite Nat.sub_diag. cbn.
              repeat split; try assumption; try lia.
           ++ exists k, b1, bb. split; [assumption|]. split; [lia|].
              replace (k - i)%nat with (S (k - S i)) by lia.
              split; [exact Hn|]. split; [assumption|]. split; [assumption|].
              split; [lia|].
              intros [|j] b' Hj Hnj Hfj; cbn in Hnj.
              ** inversion Hnj; subst. lia.
              ** apply (Hmin j b'); [lia | assumption | assumption].
      * destruct (IH _ _ _ _ _ _ _ H) as [Hall Hcase].
        assert (Hb : bestScoreOf p b <= sc').
        { destruct Hcase as [(_ & ->) | (k & b1 & bb & _ & _ & _ & _ & _ & Hlt & _)];
            lia. }
        split.
        -- intros b0 [<- | Hb0] Hf0; [assumption | now apply Hall].
        -- destruct Hcase as [Hsame | (k & b1 & bb & E & Hle & Hn & Hf1 & Hm & Hlt & Hmin)];
             [now left|].
           right. exists k, b1, bb. split; [assumption|]. split; [lia|].
           replace (k - i)%nat with (S (k - S i)) by lia.
           split; [exact Hn|]. split; [assumption|]. split; [assumption|].
           split; [assumption|].
           intros [|j] b' Hj Hnj Hfj; cbn in Hnj.
           ++ inversion Hnj; subst. lia.
           ++ apply (Hmin j b'); [lia | assumption | assumption].
Qed.

(** X17: the [for] loop of [pack] chooses, among the pending boxes that
    are not marked, a box whose best score is positive and the highest of
    all; among several boxes with that score it chooses the one of lowest
    index.  It chooses nothing exactly when no such box has a positive
    best score. *)
Theorem pack_chooses_best_score (p : Packer.t) (testBox : Box.t) :
  let '(_, score, best) :=
    Packer.findBest p (Packer.boxes p) 0 testBox 0 None in
  (forall b, In b (Packer.boxes p) -> Box.needRemove b = false ->
             bestScoreOf p b <= score) /\
  match best with
  | None => score = 0
  | Some (k, bestBox) =>
      exists b,
        nth_error (Packer.boxes p) k = Some b /\
        Box.needRemove b = false /\ Box.id bestBox = Box.id b /\
        bestScoreOf p b = score /\ 0 < score /\
        forall j b', (j < k)%nat -> nth_error (Packer.boxes p) j = Some b' ->
                     Box.needRemove b' = false -> bestScoreOf p b' < score
  end.
Proof.
  destruct (Packer.findBest p (Packer.boxes p) 0 testBox 0 None)
    as [[tb' sc'] best'] eqn:H.
  destruct (findBest_greedy _ _ _ _ _ _ _ _ _ H) as [Hall Hcase].
  split; [exact Hall|].
  destruct Hcase as [(-> & ->) | (k & b & bb & -> & _ & Hn & Hf & Hm & Hlt & Hmin)];
    [reflexivity|].
  rewrite Nat.sub_0_r in Hn, Hmin.
  exists b. repeat split; try assumption.
  apply findBest_chosen in H. destruct H as (b0 & Hn0 & _ & Hid & _).
  rewrite Hn in Hn0. inversion Hn0; subst. exact Hid.
Qed.

(** ** The place that [findBoxPosition] leaves in the test box *)






(** ** Containment and overlap *)

(** X19: [Box.isContained] is transitive, and a box that contains a box
    overlapping a third one overlaps it too; a box of positive width and
    height overlaps every box that contains it. *)
Theorem isContained_transitive_monotone (a b c : Box.t) :
  Box.isContained a b = true ->
  (Box.isContained b c = true -> Box.isContained a c = true) /\
  (Box.isSeparated a c = true -> Box.isSeparated b c = true) /\
  (Box.left a < Box.right a -> Box.top a < Box.bottom a ->
   Box.isSeparated a b = true).
Proof.
  intros Hab. apply isContained_iff in Hab. unfold insideOf in Hab.
  repeat split.
  - intros Hbc. apply isContained_iff in Hbc. apply isContained_iff.
    unfold insideOf in *. lia.
  - intros Hac. apply isSeparated_iff in Hac. apply isSeparated_iff.
    unfold interiorsOverlap in *. lia.
  - intros Hw Hh. apply isSeparated_iff. unfold interiorsOverlap. lia.
Qed.

Lemma isContained_transitive_monotone_witness :
  let a := Box.createFromCoord 2 2 4 4 in
  let b := Box.createFromCoord 0 0 5 5 in
  let c := Box.createFromCoord 3 3 9 9 in
  Box.isContained a b = true /\
  (Box.isContained b c = true -> Box.isContained a c = true) /\
  (Box.isSeparated a c = true -> Box.isSeparated b c = true) /\
  (Box.left a < Box.right a -> Box.top a < Box.bottom a ->
   Box.isSeparated a b = true).
Proof.
  split; [reflexivity|].
  apply (isContained_transitive_monotone
           (Box.createFromCoord 2 2 4 4) (Box.createFromCoord 0 0 5 5)
           (Box.createFromCoord 3 3 9 9)).
  reflexivity.
Defined.

(** X20: [splitFreeBox] pushes nothing for a free box that the placed box
    overlaps exactly when the free box lies in the placed box: a free box
    that is covered disappears, and any other leaves at least one box. *)
Theorem splitFreeBox_nothing_iff_covered (freeBox box : Box.t) :
  Box.isSeparated freeBox box = true ->
  (Packer.splitFreeBox [] freeBox box = [] <->
   Box.isContained freeBox box = true).
Proof.
  intros Hsep. apply isSeparated_iff in Hsep. unfold interiorsOverlap in Hsep.
  rewrite isContained_iff. unfold insideOf. split.
  - intros Hnil.
    assert (Hnone : forall s, ~ In s (Packer.splitFreeBox [] freeBox box))
      by (intros s; rewrite Hnil; intros []).
    assert (H1 := Hnone (Box.createFromCoord (Box.left freeBox) (Box.top freeBox)
                                             (Box.right freeBox) (Box.top box))).
    assert (H2 := Hnone (Box.createFromCoord (Box.left freeBox) (Box.bottom box)
                                             (Box.right freeBox)
                                             (Box.bottom freeBox))).
    assert (H3 := Hnone (Box.createFromCoord (Box.left freeBox) (Box.top freeBox)
                                             (Box.left box)
                                             (Box.bottom freeBox))).
    assert (H4 := Hnone (Box.createFromCoord (Box.right box) (Box.top freeBox)
                                             (Box.right freeBox)
                                             (Box.bottom freeBox))).
    rewrite splitFreeBox_In in H1, H2, H3, H4.
    repeat split.
    + destruct (Z_le_gt_dec (Box.left box) (Box.left freeBox)); [assumption|].
      exfalso. apply H3. right; right; left. split; [lia | reflexivity].
    + destruct (Z_le_gt_dec (Box.top box) (Box.top freeBox)); [assumption|].
      exfalso. apply H1. left. split; [lia | reflexivity].
    + destruct (Z_le_gt_dec (Box.right freeBox) (Box.right box)); [assumption|].
      exfalso. apply H4. right; right; right. split; [lia | reflexivity].
    + destruct (Z_le_gt_dec (Box.bottom freeBox) (Box.bottom box));
        [assumption|].
      exfalso. apply H2. right; left. split; [lia | reflexivity].
  - intros Hin. destruct (Packer.splitFreeBox [] freeBox box) as [|s l] eqn:E;
      [reflexivity|].
    assert (Hs : In s (Packer.splitFreeBox [] freeBox box))
      by (rewrite E; now left).
    apply splitFreeBox_In in Hs. exfalso.
    destruct Hs as [(Hc & _) | [(Hc & _) | [(Hc & _) | (Hc & _)]]]; lia.
Qed.

Lemma splitFreeBox_nothing_iff_covered_witness :
  let freeBox := Box.createFromCoord 0 0 50 60 in
  let box := Box.setCoord Box.new 0 0 50 100 in
  Packer.splitFreeBox [] freeBox box = [] /\
  (Packer.splitFreeBox [] freeBox box = [] <->
   Box.isContained freeBox box = true).
Proof.
  split; [reflexivity|].
  apply (splitFreeBox_nothing_iff_covered
           (Box.createFromCoord 0 0 50 60) (Box.setCoord Box.new 0 0 50 100)).
  reflexivity.
Defined.

(** ** Pending boxes *)

(** X21: in every reachable engine the pending boxes, the rejected boxes
    and the boxes that are not placed are as [addBox] made them: at the
    origin, not wider than high, with mark 0.  [pack] never writes the
    place it finds into a pending box. *)
Theorem reachable_pending_normalised (p : Packer.t) :
  reachable p ->
  Forall normalised (Packer.boxes p) /\
  Forall normalised (Packer.badBoxes p) /\
  Forall normalised (Packer.notPlacedBoxes p).
Proof.
  assert (Hprepare : forall p,
             Forall normalised (Packer.boxes p) ->
             Forall normalised (Packer.boxes (Packer.prepare p)) /\
             Forall normalised (Packer.badBoxes (Packer.prepare p)) /\
             Forall normalised (Packer.notPlacedBoxes (Packer.prepare p))).
  { intros p0 Hb. cbn. rewrite Forall_forall in Hb. repeat split.
    - eapply Permutation_Forall; [symmetry; apply sortBoxes_perm|].
      apply Forall_forall. intros b Hin. apply filter_In in Hin.
      now apply Hb.
    - apply Forall_forall. intros b Hin. apply filter_In in Hin.
      now apply Hb.
    - constructor. }
  induction 1 as [cw ch | p w h _ IH | p _ IH | p w h i _ IH | p _ IH
                  | p _ IH | p _ IH].
  - cbn. repeat split; constructor.
  - exact IH.
  - cbn. repeat split; constructor.
  - destruct IH as (Hb & Hrest). split; [|exact Hrest].
    cbn. apply Forall_app. split; [assumption|].
    constructor; [|constructor]. unfold normalised. cbn. lia.
  - apply Hprepare, IH.
  - assert (Hstart : let p1 := if Packer.isPrepared p then p
                               else Packer.prepare p in
                     Forall normalised (Packer.boxes p1) /\
                     Forall normalised (Packer.badBoxes p1) /\
                     Forall normalised (Packer.notPlacedBoxes p1)).
    { destruct (Packer.isPrepared p); [exact IH | apply Hprepare, IH]. }
    unfold Packer.pack. cbn [snd]. cbv zeta in Hstart.
    set (p1 := if Packer.isPrepared p then p else Packer.prepare p) in *.
    destruct Hstart as (Hb & Hbad & Hnot).
    destruct (packLoop_frame p1 Box.new) as (_ & _ & Ebad & Enot & _ & _).
    assert (Lb : Forall normalised (Packer.boxes (Packer.packLoop p1 Box.new))).
    { apply (packLoop_invariant
               (fun q => Forall normalised (Packer.boxes q))); [|assumption].
      intros q tb tb' sc k bb Hq _. cbn.
      apply markRemoved_Forall; [|assumption]. intros b Hn. exact Hn. }
    cbn [Packer.collectNotPlaced Packer.boxes Packer.badBoxes
         Packer.notPlacedBoxes].
    rewrite Ebad, Enot. rewrite Forall_forall in Lb. repeat split.
    + apply Forall_forall. intros b Hin. apply in_map_iff in Hin.
      destruct Hin as (b0 & <- & Hin0). apply (Lb b0 Hin0).
    + assumption.
    + apply Forall_app. split; [assumption|].
      apply Forall_forall. intros b Hin. unfold Packer.remaining in Hin.
      apply filter_In in Hin. now apply Lb.
  - unfold Packer.fullness. cbn [snd].
    destruct (js_is_minus_one (Packer._fullness p)); exact IH.
Qed.

Lemma reachable_pending_normalised_witness :
  let p := snd (Packer.pack (addBoxes (Packer.new 100 100)
                                      [(60, 20, 1); (70, 90, 2); (200, 1, 3)])) in
  (map bounds (Packer.packedBoxes p) = [(0, 0, 70, 90, 2); (70, 0, 90, 60, 1)] /\
   map bounds (Packer.boxes p) = [(0, 0, 70, 90, 2); (0, 0, 20, 60, 1)]) /\
  Forall normalised (Packer.boxes p) /\
  Forall normalised (Packer.badBoxes p) /\
  Forall normalised (Packer.notPlacedBoxes p).
Proof.
  split; [split; reflexivity|].
  apply reachable_pending_normalised. apply reach_pack.
  apply (reach_addBox _ 200 1 3), (reach_addBox _ 70 90 2),
        (reach_addBox _ 60 20 1), reach_new.
Defined.

(** ** The placed area *)















(** ** Boxes that pass the size test and fit nowhere *)

Lemma packLoop_tooHigh (ch : Z) (p : Packer.t) (testBox : Box.t) :
  Packer.containerHeight p = ch ->
  wellPacked p ->
  Forall (fun b => tooHigh ch b -> Box.needRemove b = false) (Packer.boxes p) ->
  Forall (fun b => tooHigh ch b -> Box.needRemove b = false)
         (Packer.boxes (Packer.packLoop p testBox)).
Proof.
  intros Hch Hwp Hb.
  assert (Hinv : Packer.containerHeight (Packer.packLoop p testBox) = ch /\
                 wellPacked (Packer.packLoop p testBox) /\
                 Forall (fun b => tooHigh ch b -> Box.needRemove b = false)
                        (Packer.boxes (Packer.packLoop p testBox)));
    [|apply Hinv].
  apply (packLoop_invariant
           (fun q => Packer.containerHeight q = ch /\ wellPacked q /\
                     Forall (fun b => tooHigh ch b -> Box.needRemove b = false)
                            (Packer.boxes q)));
    [|split; [assumption | split; assumption]].
  clear. intros p tb tb' sc k bb (Hch & Hwp & Hb) Hbest.
  apply findBest_chosen in Hbest. destruct Hbest as (b & Hn & Hfb & Hc).
  split; [exact Hch|]. split; [eapply wellPacked_step; eassumption|].
  cbn [Packer.setBoxes Packer.boxes Packer.addPackedBox].
  assert (Hnot : ~ tooHigh ch b).
  { intros [Hw Hh]. destruct Hc as (_ & _ & f & Hf & Hpl).
    pose proof (wp_free p Hwp) as Hfree. rewrite Forall_forall in Hfree.
    destruct (Hfree f Hf) as (Hic & (Hcw & Hcf) & _).
    unfold insideContainer in Hic. unfold placedAtCorner in Hpl. lia. }
  clear - Hn Hb Hnot. revert k Hn.
  induction Hb as [|b0 bs Hb0 Hbs IH]; intros [|k] Hn; cbn in *;
    try discriminate.
  - inversion Hn; subst. constructor; [|assumption].
    intros Ht. contradiction.
  - constructor; [assumption | now apply IH].
Qed.

(** X23: a pending box whose two sides are longer than the container is
    high, but not longer than the container is wide, passes the size test of
    [filterBadBoxes] although it fits the container in no orientation: after
    the [pack] that prepares it is not rejected and it is listed as not
    placed; a box large enough for it in either orientation is higher than
    the container, and no placed box is. *)
Theorem box_higher_than_container_is_unplaced (p : Packer.t) (b : Box.t) :
  reachable p ->
  Packer.isPrepared p = false ->
  In b (Packer.boxes p) ->
  Packer.containerHeight p < Box.width b ->
  Packer.containerHeight p < Box.height b ->
  0 < Box.width b -> 0 < Box.height b ->
  Box.width b <= Packer.containerWidth p ->
  Box.height b <= Packer.containerWidth p ->
  let q := snd (Packer.pack p) in
  ~ In b (Packer.badBoxes q) /\
  In b (Packer.notPlacedBoxes q) /\
  (forall f, accommodates f b = true ->
             Packer.containerHeight p < Box.height f) /\
  Forall (fun placed => Box.height placed <= Packer.containerHeight p)
         (Packer.packedBoxes q).
Proof.
  intros Hreach Hprep Hin Hw Hh Hpw Hph Hww Hhw q.
  pose proof (reachable_not_marked p Hreach) as Hflags.
  assert (Hgood : Packer.isBadBox p b = false).
  { unfold Packer.isBadBox. lia. }
  destruct (pack_unprepared p Hprep Hflags) as (Hbad & _). fold q in Hbad.
  split; [|split; [|split]].
  - rewrite Hbad. intros Hb. apply filter_In in Hb. destruct Hb as [_ Hb].
    congruence.
  - unfold q, Packer.pack. rewrite Hprep.
    cbn [snd Packer.collectNotPlaced Packer.notPlacedBoxes].
    apply in_or_app. right.
    set (p1 := Packer.prepare p). set (p2 := Packer.packLoop p1 Box.new).
    assert (Hb1 : In b (Packer.boxes p1)).
    { cbn. eapply Permutation_in; [symmetry; apply sortBoxes_perm|].
      apply filter_In. split; [assumption|].
      change (negb (Packer.isBadBox p b) = true). now rewrite Hgood. }
    assert (Hunfl : Forall (fun b => Box.needRemove b = false)
                           (Packer.boxes p1)).
    { cbn. eapply Permutation_Forall; [symmetry; apply sortBoxes_perm|].
      apply Forall_forall. intros x Hx. apply filter_In in Hx.
      rewrite Forall_forall in Hflags. now apply Hflags. }
    pose proof (packLoop_tooHigh (Packer.containerHeight p) p1 Box.new
                  eq_refl (prepare_wellPacked p)) as Hkeep.
    fold p2 in Hkeep.
    assert (Hkeep' : Forall (fun b => tooHigh (Packer.containerHeight p) b ->
                                      Box.needRemove b = false)
                            (Packer.boxes p2)).
    { apply Hkeep. eapply Forall_impl; [|exact Hunfl]. auto. }
    destruct (packLoop_appends p1 Box.new) as [_ Hsame]. fold p2 in Hsame.
    unfold sameButFlags in Hsame.
    rewrite (map_unflag_not_marked _ Hunfl) in Hsame.
    rewrite <- Hsame in Hb1. apply in_map_iff in Hb1.
    destruct Hb1 as (b2 & Hb2 & Hin2).
    rewrite Forall_forall in Hkeep'.
    assert (Hf2 : Box.needRemove b2 = false).
    { apply (Hkeep' b2 Hin2). rewrite <- Hb2 in Hw, Hh. split; assumption. }
    assert (Heq : b2 = b).
    { rewrite <- Hb2. destruct b2; cbn in *. now subst. }
    subst b2. unfold Packer.remaining. apply filter_In. rewrite Hf2. auto.
  - intros f Hacc. unfold accommodates in Hacc. lia.
  - destruct (pack_unprepared_invariants p Hprep) as [Hwp _]. fold q in Hwp.
    destruct (pack_container p) as [_ Ech]. fold q in Ech.
    eapply Forall_impl; [|apply (wp_packed q Hwp)]. cbn beta.
    unfold insideContainer, coherent. rewrite Ech.
    intros x ((_ & Ht & _ & Hb) & (_ & Hhx) & _). lia.
Qed.

Lemma box_higher_than_container_is_unplaced_witness :
  let p := addBoxes (Packer.new 10 3) [(5, 8, 1); (2, 2, 2)] in
  let q := snd (Packer.pack p) in
  map Box.id (Packer.packedBoxes q) = [2] /\
  ~ In (Box.createFromSize 5 8 1) (Packer.badBoxes q) /\
  In (Box.createFromSize 5 8 1) (Packer.notPlacedBoxes q) /\
  (forall f, accommodates f (Box.createFromSize 5 8 1) = true ->
             3 < Box.height f) /\
  Forall (fun placed => Box.height placed <= 3) (Packer.packedBoxes q).
Proof.
  split; [reflexivity|].
  apply (box_higher_than_container_is_unplaced
           (addBoxes (Packer.new 10 3) [(5, 8, 1); (2, 2, 2)])
           (Box.createFromSize 5 8 1)).
  - apply (reach_addBox _ 2 2 2), (reach_addBox _ 5 8 1), reach_new.
  - reflexivity.
  - left. reflexivity.
  - reflexivity.
  - reflexivity.
  - reflexivity.
  - reflexivity.
  - cbn. lia.
  - cbn. lia.
Defined.

(** ** Resizing before the first [pack] *)

Lemma resizeContainer_addBoxes (calls : list (Z * Z * Z)) :
  forall p w h,
    Packer.resizeContainer (addBoxes p calls) w h
    = addBoxes (Packer.resizeContainer p w h) calls.
Proof.
  unfold addBoxes. induction calls as [|[[cw ch] i] calls IH]; intros p w h;
    cbn [fold_left]; [reflexivity|].
  rewrite IH. reflexivity.
Qed.

(** X24: resizing an engine before its first [pack] gives the same result
    as making the engine with the new dimensions: for any [addBox] calls,
    [pack] after [resizeContainer] returns what [pack] returns on a new
    engine of the new dimensions with the same calls, and leaves the same
    engine. *)
Theorem resize_before_first_pack (cw ch w h : Z) (calls : list (Z * Z * Z)) :
  Packer.pack (Packer.resizeContainer (addBoxes (Packer.new cw ch) calls) w h)
  = Packer.pack (addBoxes (Packer.new w h) calls).
Proof. rewrite resizeContainer_addBoxes. reflexivity. Qed.

(** ** Progress *)

(** X25: when a pending box of positive width and height fits the empty
    container, as stored or turned by a quarter, the [pack] that prepares
    places at least one box. *)
Theorem pack_places_something (p : Packer.t) (b : Box.t) :
  reachable p ->
  Packer.isPrepared p = false ->
  In b (Packer.boxes p) ->
  0 < Box.width b -> 0 < Box.height b ->
  accommodates (containerBox p) b = true ->
  fst (Packer.pack p) <> [].
Proof.
  intros Hreach Hprep Hin Hw Hh Hfit Hnil.
  pose proof (reachable_not_marked p Hreach) as Hflags.
  change (fst (Packer.pack p)) with (Packer.packedBoxes (snd (Packer.pack p)))
    in Hnil.
  destruct (pack_unprepared_startsAtOrigin p Hprep)
    as [(_ & Hfree) | (b0 & rest0 & Hp & _)]; [|congruence].
  destruct (pack_unprepared p Hprep Hflags) as (_ & sources & HF & HP).
  rewrite Hnil in HF. inversion HF; subst. cbn [app] in HP.
  assert (Hgood : Packer.isBadBox p b = false).
  { unfold Packer.isBadBox. unfold accommodates, containerBox in Hfit.
    cbn in Hfit. lia. }
  assert (Hnot : In b (Packer.notPlacedBoxes (snd (Packer.pack p)))).
  { eapply Permutation_in; [symmetry; exact HP|].
    apply filter_In. rewrite Hgood. auto. }
  pose proof (pack_unprepared_unplaced p Hprep Hflags b (containerBox p) Hnot)
    as Hno.
  rewrite Hfree in Hno. rewrite Hno in Hfit; [discriminate | now left].
Qed.

Lemma pack_places_something_witness :
  let p := addBoxes (Packer.new 10 3) [(5, 8, 1); (3, 9, 2)] in
  map bounds (fst (Packer.pack p)) = [(0, 0, 9, 3, 2)] /\
  fst (Packer.pack p) <> [].
Proof.
  split; [reflexivity|].
  apply (pack_places_something
           (addBoxes (Packer.new 10 3) [(5, 8, 1); (3, 9, 2)])
           (Box.createFromSize 3 9 2)).
  - apply (reach_addBox _ 3 9 2), (reach_addBox _ 5 8 1), reach_new.
  - reflexivity.
  - right; left. reflexivity.
  - reflexivity.
  - reflexivity.
  - reflexivity.
Defined.
